(** * gorouter: route-service middleware and proxy response writer

    A shallow embedding of
      - [proxy/utils/responsewriter.go]  (package [utils]) and
      - the route-service handler        (package [handlers]),
    together with the parts of Go's [net/http] and [net/textproto] that the
    two files call.

    Conventions.
      - Go [int] is a 64-bit two's complement integer, carried as [Z] and
        wrapped by [int_wrap] where the code does arithmetic.
      - [string] and [[]byte] are Rocq strings (lists of bytes).
      - [error] is [option string]; [None] is Go's [nil].
      - [http.Header] is [gmap string (list string)].
      - A run-time panic is the [Panics] outcome. *)

From Stdlib Require Import ZArith Lia Ascii String List Bool.
From stdpp Require Import base option list gmap strings.
Import ListNotations.

Local Open Scope Z_scope.
Local Open Scope string_scope.

(** ** Shared Go notions *)

Definition error := option string.

Inductive outcome (A : Type) : Type :=
| Returns (a : A)
| Panics (msg : string).
Arguments Returns {A} a.
Arguments Panics {A} msg.

Definition int_wrap (z : Z) : Z := (z + 2 ^ 63) mod 2 ^ 64 - 2 ^ 63.

(** The part of [s] before its first colon, the whole of [s] when it has
    none. *)
Fixpoint before_colon (s : string) : string :=
  match s with
  | EmptyString => EmptyString
  | String c r => if Ascii.eqb c ":" then EmptyString else String c (before_colon r)
  end.

(** ** net/textproto and net/http *)

Module textproto.

Definition code (c : ascii) : nat := nat_of_ascii c.

Definition isLower (c : ascii) : bool := (97 <=? code c)%nat && (code c <=? 122)%nat.
Definition isUpper (c : ascii) : bool := (65 <=? code c)%nat && (code c <=? 90)%nat.
Definition isDigit (c : ascii) : bool := (48 <=? code c)%nat && (code c <=? 57)%nat.

(** The token characters of RFC 7230. *)
Definition validHeaderFieldByte (c : ascii) : bool :=
  isLower c || isUpper c || isDigit c
  || existsb (Nat.eqb (code c))
       [33; 35; 36; 37; 38; 39; 42; 43; 45; 46; 94; 95; 96; 124; 126]%nat.

Definition toLower : nat := 32.

(** First letter and every letter after a dash upper case, the others
    lower case. *)
Fixpoint canonicalize (upper : bool) (s : string) : string :=
  match s with
  | EmptyString => EmptyString
  | String c r =>
      let c' :=
        if upper && isLower c then ascii_of_nat (code c - toLower)
        else if negb upper && isUpper c then ascii_of_nat (code c + toLower)
        else c in
      String c' (canonicalize (Ascii.eqb c' "-") r)
  end.

(** A key holding a byte that is no token character is returned as it is. *)
Definition CanonicalMIMEHeaderKey (s : string) : string :=
  if forallb validHeaderFieldByte (list_ascii_of_string s)
  then canonicalize true s
  else s.

End textproto.

Module http.

Definition StatusOK : Z := 200.
Definition StatusBadRequest : Z := 400.
Definition StatusInternalServerError : Z := 500.
Definition StatusBadGateway : Z := 502.

(** [type Header map[string][]string]; a [nil] slice is the empty list. *)
Module Header.

Definition Get (h : gmap string (list string)) (key : string) : string :=
  match h !! textproto.CanonicalMIMEHeaderKey key with
  | Some (v :: _) => v
  | _ => ""
  end.

Definition Set_ (h : gmap string (list string)) (key value : string)
  : gmap string (list string) :=
  <[textproto.CanonicalMIMEHeaderKey key := [value]]> h.

Definition Del (h : gmap string (list string)) (key : string)
  : gmap string (list string) :=
  delete (textproto.CanonicalMIMEHeaderKey key) h.

(** The header [key] is present: the map has an entry under its
    canonical form, whatever the values. *)
Definition present (h : gmap string (list string)) (key : string) : Prop :=
  is_Some (h !! textproto.CanonicalMIMEHeaderKey key).

End Header.

(** What a wrapped [http.ResponseWriter] is asked to do, oldest first. *)
Inductive call : Type :=
| CallWriteHeader (s : Z)
| CallWrite (b : string)
| CallFlush
| CallHijack
| CallCloseNotify.

(** A channel end as a Go value: the channel and the direction of the
    reference. *)
Inductive dir : Type := Bidi | RecvOnly | SendOnly.
Definition chan : Type := (nat * dir)%type.

(** The result triple of [Hijack()]; connection and buffer are opaque. *)
Definition hijacked : Type := (option nat * option nat * error)%type.

(** The dynamic value behind the interface [http.ResponseWriter]: its
    header map, the calls it has received, how its [Write] answers
    (a function of the calls so far and the bytes), and which of the optional
    interfaces [http.Flusher], [http.Hijacker] and [http.CloseNotifier] its
    dynamic type implements. *)
Record ResponseWriter : Type := {
  rw_header : gmap string (list string);
  rw_calls : list call;
  rw_write_result : list call -> string -> Z * error;
  rw_Flusher : bool;
  rw_Hijacker : option (list call -> hijacked);
  rw_CloseNotifier : option chan
}.

Definition with_header (w : ResponseWriter) (h : gmap string (list string))
  : ResponseWriter :=
  {| rw_header := h; rw_calls := rw_calls w;
     rw_write_result := rw_write_result w; rw_Flusher := rw_Flusher w;
     rw_Hijacker := rw_Hijacker w; rw_CloseNotifier := rw_CloseNotifier w |}.

Definition record_call (w : ResponseWriter) (c : call) : ResponseWriter :=
  {| rw_header := rw_header w; rw_calls := rw_calls w ++ [c];
     rw_write_result := rw_write_result w; rw_Flusher := rw_Flusher w;
     rw_Hijacker := rw_Hijacker w; rw_CloseNotifier := rw_CloseNotifier w |}.

Definition WriteHeader (w : ResponseWriter) (s : Z) : ResponseWriter :=
  record_call w (CallWriteHeader s).

Definition Write (w : ResponseWriter) (b : string) : (Z * error) * ResponseWriter :=
  (rw_write_result w (rw_calls w) b, record_call w (CallWrite b)).

(** [http.Error]: plain-text content type, [nosniff], the status, then the
    message and a newline. *)
Definition Error (w : ResponseWriter) (msg : string) (code : Z) : ResponseWriter :=
  let w1 := with_header w (Header.Set_ (rw_header w) "Content-Type" "text/plain; charset=utf-8") in
  let w2 := with_header w1 (Header.Set_ (rw_header w1) "X-Content-Type-Options" "nosniff") in
  let w3 := WriteHeader w2 code in
  snd (Write w3 (msg ++ String (ascii_of_nat 10) "")).

End http.

(** ** Channels

    Just enough of Go's channels to say what a caller can observe on a channel
    it is handed: which channels exist, which ends the running program holds,
    and which values have been received so far.  A value is received on a
    channel only after some goroutine sends on it or closes it, and both need
    an end that is not receive-only. *)

Module gochan.

Import http.

Record heap : Type := {
  made : nat;                       (* channels are numbered [0 .. made-1] *)
  held : list chan;                 (* ends reachable by the program *)
  delivered : list (nat * bool)     (* receptions so far, newest first *)
}.

Definition empty : heap := {| made := 0; held := []; delivered := [] |}.

Definition can_send (d : dir) : bool :=
  match d with RecvOnly => false | _ => true end.

(** [make(chan bool)]: a new unbuffered channel; the caller gets its
    bidirectional end as a local value. *)
Definition make (h : heap) : chan * heap :=
  ((made h, Bidi),
   {| made := S (made h); held := held h; delivered := delivered h |}).

(** Conversion of a channel value to [<-chan bool]. *)
Definition recv_only (c : chan) : chan := (fst c, RecvOnly).

(** A channel end leaves the function that owns it (it is returned or
    stored): from then on the program holds it. *)
Definition publish (c : chan) (h : heap) : heap :=
  {| made := made h; held := c :: held h; delivered := delivered h |}.

(** Every end the program holds, and every reception, is of a channel that
    was made. *)
Definition wf (h : heap) : Prop :=
  (forall n d, In (n, d) (held h) -> (n < made h)%nat) /\
  (forall n v, In (n, v) (delivered h) -> (n < made h)%nat).

(** What the rest of the program may do to the channels, one step at a
    time: make a channel, convert a bidirectional end to a directed one,
    forget ends, and have a value received after a send or a close through
    an end that allows sending. *)
Inductive step : heap -> heap -> Prop :=
| step_make h :
    step h (publish (fst (make h)) (snd (make h)))
| step_restrict h n d :
    In (n, Bidi) (held h) -> step h (publish (n, d) h)
| step_forget h held' :
    (forall c, In c held' -> In c (held h)) ->
    step h {| made := made h; held := held'; delivered := delivered h |}
| step_send h n d v :
    In (n, d) (held h) -> can_send d = true ->
    step h {| made := made h; held := held h; delivered := (n, v) :: delivered h |}
| step_close h n d :
    In (n, d) (held h) -> can_send d = true ->
    step h {| made := made h; held := held h; delivered := (n, false) :: delivered h |}.

Inductive steps : heap -> heap -> Prop :=
| steps_refl h : steps h h
| steps_cons h1 h2 h3 : step h1 h2 -> steps h2 h3 -> steps h1 h3.

(** No value was ever received on channel [n]. *)
Definition silent (n : nat) (h : heap) : Prop :=
  forall v, ~ In (n, v) (delivered h).

(** Channel [n] exists, the program holds no end of it that can send, and
    nothing was received on it. *)
Definition mute (n : nat) (h : heap) : Prop :=
  (n < made h)%nat /\
  (forall d, In (n, d) (held h) -> d = RecvOnly) /\
  silent n h.

End gochan.

(** ** package utils: the proxy response writer *)

Module utils.

Import http.

(** Lines the code prints while it runs ([fmt.Println] on standard output,
    [debug.PrintStack] on standard error). *)
Inductive output : Type :=
| Println (msg : string) (v : Z)
| PrintStack.

(** [flusher] is the interface value [w.(http.Flusher)]: [true] when it
    holds the very value that [w] holds, [false] when it is [nil]. *)
Record proxyResponseWriter : Type := {
  w : ResponseWriter;
  status : Z;
  size : Z;
  flusher : bool;
  done : bool
}.

(** The writer [*p] with the wrapped writer it points to, and the parts of
    the process the methods touch besides. *)
Record state : Type := {
  self : proxyResponseWriter;
  console : list output;
  chans : gochan.heap
}.

Definition set_self (st : state) (p : proxyResponseWriter) : state :=
  {| self := p; console := console st; chans := chans st |}.

Definition set_w (p : proxyResponseWriter) (w' : ResponseWriter) : proxyResponseWriter :=
  {| w := w'; status := status p; size := size p; flusher := flusher p; done := done p |}.

Definition print (o : output) (st : state) : state :=
  {| self := self st; console := console st ++ [o]; chans := chans st |}.

(** The single-value type assertion [w.(http.Flusher)] panics when the
    dynamic type of [w] has no [Flush] method. *)
Definition NewProxyResponseWriter (w0 : ResponseWriter) : outcome proxyResponseWriter :=
  if rw_Flusher w0
  then Returns {| w := w0; status := 0; size := 0; flusher := true; done := false |}
  else Panics "interface conversion: http.ResponseWriter is not http.Flusher: missing method Flush".

Definition CloseNotify (st : state) : chan * state :=
  let p := self st in
  match rw_CloseNotifier (w p) with
  | Some c => (c, set_self st (set_w p (record_call (w p) CallCloseNotify)))
  | None =>
      let (c, h) := gochan.make (chans st) in
      let r := gochan.recv_only c in
      (r, {| self := p; console := console st; chans := gochan.publish r h |})
  end.

Definition Header (st : state) : gmap string (list string) :=
  rw_header (w (self st)).

Definition Hijack (st : state) : hijacked * state :=
  let p := self st in
  match rw_Hijacker (w p) with
  | None => ((None, None, Some "response writer cannot hijack"), st)
  | Some hj => (hj (rw_calls (w p)), set_self st (set_w p (record_call (w p) CallHijack)))
  end.

Definition WriteHeader (s : Z) (st : state) : state :=
  let st := print (Println "proxy-response-writer-writing-status-code" s) st in
  let st := print PrintStack st in
  let p := self st in
  if done p then st
  else
    let h := rw_header (w p) in
    let w1 := match h !! "Content-Type" with
              | Some _ => w p
              | None => with_header (w p) (<["Content-Type" := []]> h)
              end in
    let w2 := http.WriteHeader w1 s in
    set_self st {| w := w2;
                   status := if Z.eqb (status p) 0 then s else status p;
                   size := size p; flusher := flusher p; done := done p |}.

Definition Write (b : string) (st : state) : (Z * error) * state :=
  if done (self st) then ((0, None), st)
  else
    let st := if Z.eqb (status (self st)) 0
              then WriteHeader StatusOK
                     (print (Println "proxy-response-writer-in-WRITE" (status (self st))) st)
              else st in
    let p := self st in
    let (res, w') := http.Write (w p) b in
    (res, set_self st {| w := w'; status := status p;
                         size := int_wrap (size p + fst res);
                         flusher := flusher p; done := done p |}).

Definition Done (st : state) : state :=
  let p := self st in
  set_self st {| w := w p; status := status p; size := size p;
                 flusher := flusher p; done := true |}.

Definition Flush (st : state) : state :=
  let p := self st in
  if flusher p then set_self st (set_w p (record_call (w p) CallFlush)) else st.

Definition Status (st : state) : Z := status (self st).

Definition Size (st : state) : Z := size (self st).

(** A caller's use of the writer: the methods of [ProxyResponseWriter], and
    an assignment into the map that [Header()] hands out. *)
Inductive op : Type :=
| OpHeaderAssign (key : string) (values : list string)
| OpHijack
| OpWrite (b : string)
| OpWriteHeader (s : Z)
| OpDone
| OpFlush
| OpStatus
| OpSize
| OpCloseNotify.

Definition run_op (o : op) (st : state) : state :=
  match o with
  | OpHeaderAssign k vs =>
      let p := self st in
      set_self st (set_w p (with_header (w p) (<[k := vs]> (Header st))))
  | OpHijack => snd (Hijack st)
  | OpWrite b => snd (Write b st)
  | OpWriteHeader s => WriteHeader s st
  | OpDone => Done st
  | OpFlush => Flush st
  | OpStatus => st
  | OpSize => st
  | OpCloseNotify => snd (CloseNotify st)
  end.

Definition run_ops (os : list op) (st : state) : state :=
  fold_left (fun st o => run_op o st) os st.

(** A writer just constructed around [w0], in a process that has printed
    nothing and made no channel. *)
Definition fresh (w0 : ResponseWriter) : outcome state :=
  match NewProxyResponseWriter w0 with
  | Returns p => Returns {| self := p; console := []; chans := gochan.empty |}
  | Panics msg => Panics msg
  end.

(** Observations used to state the properties. *)

(** The calls by which [Write] and [WriteHeader] reach the wrapped writer. *)
Definition is_write_call (c : call) : bool :=
  match c with
  | CallWriteHeader _ | CallWrite _ => true
  | _ => false
  end.

Definition forwarded (st : state) : list call := rw_calls (w (self st)).

Definition forwarded_writes (st : state) : list call :=
  List.filter is_write_call (forwarded st).

(** The status that the uses [os] record on a writer that is not done and
    has none recorded: the argument of the first [WriteHeader] whose argument
    is not 0, or 200 for a [Write] that comes before any such; 0, nothing
    recorded, when [Done] or the end of [os] comes first. *)
Fixpoint first_recorded (os : list op) : Z :=
  match os with
  | [] => 0
  | OpWriteHeader s :: rest => if Z.eqb s 0 then first_recorded rest else s
  | OpWrite _ :: _ => StatusOK
  | OpDone :: _ => 0
  | _ :: rest => first_recorded rest
  end.

(** Further observations on a writer and its call log. *)

Definition is_OpHeaderAssign (o : op) : bool :=
  match o with OpHeaderAssign _ _ => true | _ => false end.

Definition is_OpCloseNotify (o : op) : bool :=
  match o with OpCloseNotify => true | _ => false end.

Definition is_OpHijack (o : op) : bool :=
  match o with OpHijack => true | _ => false end.

(** How the writer may leave a header map [h] as [h']: every entry but
    [Content-Type] as it was, and [Content-Type] as it was or, if it was
    absent, set to [nil]. *)
Definition only_absent_Content_Type_set (h h' : gmap string (list string)) : Prop :=
  (forall k, k <> "Content-Type" -> h' !! k = h !! k) /\
  (h' !! "Content-Type" = h !! "Content-Type" \/
   h !! "Content-Type" = None /\ h' !! "Content-Type" = Some []).

Definition has_WriteHeader (l : list call) : bool :=
  existsb (fun c => match c with CallWriteHeader _ => true | _ => false end) l.

(** In the log [l], every [Write] comes after some [WriteHeader]; [seen]
    tells whether a [WriteHeader] came before [l]. *)
Fixpoint header_precedes_body (seen : bool) (l : list call) : bool :=
  match l with
  | [] => true
  | CallWriteHeader _ :: r => header_precedes_body true r
  | CallWrite _ :: r => seen && header_precedes_body seen r
  | _ :: r => header_precedes_body seen r
  end.

(** The log is in order, and a recorded status means a header was sent. *)
Definition header_sent_first (st : state) : Prop :=
  header_precedes_body false (forwarded st) = true /\
  (Status st <> 0 -> has_WriteHeader (forwarded st) = true).

(** The byte counts a wrapped writer reports for the [Write] calls of the
    log [rest], added up; [seen] is the log before [rest], on which its
    answers may depend. *)
Fixpoint reported_bytes (answer : list call -> string -> Z * error)
    (seen rest : list call) : Z :=
  match rest with
  | [] => 0
  | CallWrite b :: r =>
      fst (answer seen b) + reported_bytes answer (seen ++ [CallWrite b]) r
  | c :: r => reported_bytes answer (seen ++ [c]) r
  end.

(** What a use of the writer sends to the wrapped writer [wr] once the
    writer is done; [has_flusher] tells whether its flusher is set. *)
Definition passes_when_done (wr : ResponseWriter) (has_flusher : bool) (o : op)
  : list call :=
  match o with
  | OpFlush => if has_flusher then [CallFlush] else []
  | OpHijack => match rw_Hijacker wr with Some _ => [CallHijack] | None => [] end
  | OpCloseNotify =>
      match rw_CloseNotifier wr with Some _ => [CallCloseNotify] | None => [] end
  | _ => []
  end.

End utils.

(** ** Packages the handler imports *)

Module url.

(** [url.URL], with the two fields the handler reads. *)
Record URL : Type := { Host : string; Path : string }.

End url.

Module route.

(** Modelled from the spec: the type [route.Pool], whose declaration is not
    among the sources embedded here.  A route pool is the backend set of a
    URI; it carries an optional route-service URL (empty: no indirection) and
    an emptiness predicate. *)
Record Pool : Type := { RouteServiceUrl : string; IsEmpty : bool }.

End route.

Module routeservice.

(** Modelled from the spec: the struct [routeservice.RouteServiceRequest],
    whose declaration is not among the sources embedded here.  The
    route-service request parameters are the raw route-service URL string,
    the signature token, the opaque metadata, the canonical forwarded-URL
    string and the parsed URL. *)
Record RouteServiceRequest : Type := {
  URLString : string;
  Signature : string;
  Metadata : string;
  ForwardedURL : string;
  ParsedUrl : url.URL
}.

(** The names of the three route-service headers are constants of package
    [routeservice] whose declarations are not among the sources embedded
    here: they are taken as given. *)
Record header_names : Type := {
  RouteServiceSignature : string;
  RouteServiceMetadata : string;
  RouteServiceForwardedURL : string
}.

(** The methods of [*routeservice.RouteServiceConfig] that the handler
    calls.  [ValidateSignature] is handed a pointer to the header map, so it
    returns the map as it leaves it. *)
Record RouteServiceConfig : Type := {
  RouteServiceEnabled : bool;
  RouteServiceRecommendHttps : bool;
  ValidateSignature :
    gmap string (list string) -> string -> gmap string (list string) * error;
  Request : string -> string -> RouteServiceRequest * error
}.

End routeservice.

(** ** package handlers: the route-service middleware *)

Module handlers.

Import http.

(** Context keys: a key of type [string] and a key of the package's type
    [key] differ even when they spell the same. *)
Inductive ctxkey : Type :=
| StringKey (s : string)
| TypedKey (s : string).

Definition ctxkey_eqb (a b : ctxkey) : bool :=
  match a, b with
  | StringKey x, StringKey y => String.eqb x y
  | TypedKey x, TypedKey y => String.eqb x y
  | _, _ => false
  end.

Definition ProxyResponseWriterCtxKey : ctxkey := TypedKey "ProxyResponseWriter".
Definition RouteServiceURLCtxKey : ctxkey := TypedKey "RouteServiceURL".
Definition InternalRouteServiceCtxKey : ctxkey := TypedKey "InternalRouteService".

(** Values kept in a context ([interface{}]): a [*route.Pool] (which may be
    a nil pointer), a [*url.URL], or something else. *)
Inductive any : Type :=
| PoolPtr (p : option route.Pool)
| URLPtr (u : url.URL)
| Other (tag : string).

(** [context.WithValue] puts a binding in front; [Value] finds the newest
    binding of a key, [None] is the [nil] interface. *)
Definition WithValue (ctx : list (ctxkey * any)) (k : ctxkey) (v : any)
  : list (ctxkey * any) := (k, v) :: ctx.

Fixpoint Value (ctx : list (ctxkey * any)) (k : ctxkey) : option any :=
  match ctx with
  | [] => None
  | (k', v) :: rest => if ctxkey_eqb k' k then Some v else Value rest k
  end.

(** [*http.Request], with what the handler reads and changes. *)
Record Request : Type := {
  Header : gmap string (list string);
  Host : string;
  RequestURI : string;
  ctx : list (ctxkey * any)
}.

Definition with_Header (req : Request) (h : gmap string (list string)) : Request :=
  {| Header := h; Host := Host req; RequestURI := RequestURI req; ctx := ctx req |}.

Definition WithContext (req : Request) (c : list (ctxkey * any)) : Request :=
  {| Header := Header req; Host := Host req; RequestURI := RequestURI req; ctx := c |}.

(** [http.HandlerFunc], by what it does to the response writer. *)
Definition HandlerFunc : Type := ResponseWriter -> Request -> ResponseWriter.

Record routeService : Type := {
  routeRegistry : string -> option route.Pool;        (* [Registry.Lookup] *)
  rsReverseProxy : HandlerFunc;                       (* [RouteServiceProxy.ServeHTTP] *)
  config : routeservice.RouteServiceConfig
}.

(** What the handler does besides writing to [rw]: log lines and calls to its
    collaborators, with their arguments, oldest first. *)
Inductive event : Type :=
| EvLog (level msg : string) (err : error)
| EvValidateSignature (h : gmap string (list string)) (forwardedURL : string)
| EvRequest (rsUrl forwardedURL : string)
| EvLookup (uri : string)
| EvProxy (rw : ResponseWriter) (req : Request)
| EvNext (rw : ResponseWriter) (req : Request).

Record world : Type := { rw : ResponseWriter; trace : list event }.

(** State and panic monad of the handler. *)
Definition M (A : Type) : Type := world -> outcome A * world.

Definition ret {A} (a : A) : M A := fun wd => (Returns a, wd).

Definition bind {A B} (m : M A) (k : A -> M B) : M B :=
  fun wd =>
    match m wd with
    | (Returns a, wd') => k a wd'
    | (Panics msg, wd') => (Panics msg, wd')
    end.

Definition panic {A} (msg : string) : M A := fun wd => (Panics msg, wd).

Notation "'do' x <- m ; k" := (bind m (fun x => k))
  (at level 10, x name, m at level 100, k at level 200).
Notation "m >> k" := (bind m (fun _ => k))
  (at level 100, k at level 200, right associativity).

Definition emit (e : event) : M unit :=
  fun wd => (Returns tt, {| rw := rw wd; trace := trace wd ++ [e] |}).

Definition on_rw (f : ResponseWriter -> ResponseWriter) : M unit :=
  fun wd => (Returns tt, {| rw := f (rw wd); trace := trace wd |}).

(** A call of a handler: noted with the writer and request it is given,
    then it acts on the writer. *)
Definition call_handler (ev : ResponseWriter -> Request -> event)
    (f : HandlerFunc) (req : Request) : M unit :=
  fun wd =>
    (Returns tt, {| rw := f (rw wd) req; trace := trace wd ++ [ev (rw wd) req] |}).

Definition logger_Error (msg : string) (err : error) : M unit := emit (EvLog "error" msg err).
Definition logger_Info (msg : string) : M unit := emit (EvLog "info" msg None).

(** Modelled from the spec: the helper [writeStatus] of package [handlers],
    whose definition is not among the sources embedded here.  A failing
    branch responds with the given status and the given short fixed string as
    body. *)
Definition writeStatus (code : Z) (message : string) (alr : option any) : M unit :=
  on_rw (fun w => http.WriteHeader w code) >>
  on_rw (fun w => snd (http.Write w message)).

(** Modelled from the spec: the helper [hostWithoutPort] of package
    [handlers], whose definition is not among the sources embedded here.  It
    is the request's host without its port. *)
Definition hostWithoutPort (req : Request) : string := before_colon (Host req).

Definition hasBeenToRouteService (rsUrl sigHeader : string) : bool :=
  negb (String.eqb sigHeader "") && negb (String.eqb rsUrl "").

(** [rsPool == nil || rsPool.IsEmpty()] *)
Definition nil_or_empty (p : option route.Pool) : bool :=
  match p with
  | None => true
  | Some p => route.IsEmpty p
  end.

(** How the block guarded by [routeServiceUrl != ""] is left: by one of
    its [return]s, or at its end with the request as it then is. *)
Inductive flow : Type :=
| Return
| FallThrough (req : Request).

Section ServeHTTP.

Variable names : routeservice.header_names.
Variable r : routeService.

Let sigKey := routeservice.RouteServiceSignature names.
Let metaKey := routeservice.RouteServiceMetadata names.
Let fwdKey := routeservice.RouteServiceForwardedURL names.

Definition forwardedURLRaw (req : Request) : string :=
  (if routeservice.RouteServiceRecommendHttps (config r) then "https" else "http")
    ++ "://" ++ hostWithoutPort req ++ RequestURI req.

(** Lines 74-136: the body of [if routeServiceUrl != ""]. *)
Definition routeServiceBlock (routeServiceUrl : string) (alr : option any)
    (req : Request) : M flow :=
  let rsSignature := Header.Get (Header req) sigKey in
  let forwardedURLRaw := forwardedURLRaw req in
  if hasBeenToRouteService routeServiceUrl rsSignature then
    emit (EvValidateSignature (Header req) forwardedURLRaw) >>
    let (h, err) :=
      routeservice.ValidateSignature (config r) (Header req) forwardedURLRaw in
    let req := with_Header req h in
    match err with
    | Some e =>
        logger_Error "signature-validation-failed" (Some e) >>
        writeStatus StatusBadRequest "Failed to validate Route Service Signature" alr >>
        ret Return
    | None =>
        let req := with_Header req (Header.Del (Header req) sigKey) in
        let req := with_Header req (Header.Del (Header req) metaKey) in
        let req := with_Header req (Header.Del (Header req) fwdKey) in
        ret (FallThrough req)
    end
  else
    emit (EvRequest routeServiceUrl forwardedURLRaw) >>
    let (routeServiceArgs, err) :=
      routeservice.Request (config r) routeServiceUrl forwardedURLRaw in
    match err with
    | Some e =>
        logger_Error "route-service-failed" (Some e) >>
        writeStatus StatusInternalServerError "Route service request failed." alr >>
        ret Return
    | None =>
        let req := with_Header req
          (Header.Set_ (Header req) sigKey (routeservice.Signature routeServiceArgs)) in
        let req := with_Header req
          (Header.Set_ (Header req) metaKey (routeservice.Metadata routeServiceArgs)) in
        let req := with_Header req
          (Header.Set_ (Header req) fwdKey (routeservice.ForwardedURL routeServiceArgs)) in
        let parsed := routeservice.ParsedUrl routeServiceArgs in
        let req := WithContext req
          (WithValue (ctx req) RouteServiceURLCtxKey (URLPtr parsed)) in
        let routeURI := url.Host parsed ++ url.Path parsed in
        emit (EvLookup routeURI) >>
        let rsPool := routeRegistry r routeURI in
        let req := WithContext req
          (WithValue (ctx req) (StringKey "RoutePool") (PoolPtr rsPool)) in
        if nil_or_empty rsPool
        then call_handler EvProxy (rsReverseProxy r) req >> ret Return
        else ret (FallThrough req)
    end.

Definition ServeHTTP (req : Request) (next : HandlerFunc) : M unit :=
  let alr := Value (ctx req) (StringKey "AccessLogRecord") in
  match Value (ctx req) (StringKey "RoutePool") with
  | None =>
      logger_Error "RoutePool not set on context" (Some "failed-to-access-RoutePool") >>
      on_rw (fun w => http.Error w "RoutePool not set on context" StatusBadGateway)
  | Some (PoolPtr (Some routePool)) =>
      let routeServiceUrl := route.RouteServiceUrl routePool in
      if negb (String.eqb routeServiceUrl "")
         && negb (routeservice.RouteServiceEnabled (config r))
      then
        logger_Info "route-service-unsupported" >>
        on_rw (fun w => with_header w
                 (Header.Set_ (rw_header w) "X-Cf-RouterError" "route_service_unsupported")) >>
        writeStatus StatusBadGateway "Support for route services is disabled." alr
      else
        do fl <- (if negb (String.eqb routeServiceUrl "")
                  then routeServiceBlock routeServiceUrl alr req
                  else ret (FallThrough req));
        match fl with
        | Return => ret tt
        | FallThrough req => call_handler EvNext next req
        end
  | Some (PoolPtr None) =>
      panic "runtime error: invalid memory address or nil pointer dereference"
  | Some _ =>
      panic "interface conversion: interface {} is not *route.Pool"
  end.

(** One request served: the outcome, the response writer and the trace. *)
Definition serve (rw0 : ResponseWriter) (req : Request) (next : HandlerFunc)
  : outcome unit * world :=
  ServeHTTP req next {| rw := rw0; trace := [] |}.

(** The request as the outbound leg sends it on after a successful
    signing: the three headers set from [args], the parsed URL and the
    resolved pool put in the context. *)
Definition outgoing (req : Request) (args : routeservice.RouteServiceRequest) : Request :=
  let parsed := routeservice.ParsedUrl args in
  {| Header :=
       Header.Set_
         (Header.Set_
            (Header.Set_ (Header req) sigKey (routeservice.Signature args))
            metaKey (routeservice.Metadata args))
         fwdKey (routeservice.ForwardedURL args);
     Host := Host req;
     RequestURI := RequestURI req;
     ctx := WithValue
              (WithValue (ctx req) RouteServiceURLCtxKey (URLPtr parsed))
              (StringKey "RoutePool")
              (PoolPtr (routeRegistry r (url.Host parsed ++ url.Path parsed))) |}.

End ServeHTTP.

(** Observations on a trace. *)
Definition is_EvNext (e : event) : bool := match e with EvNext _ _ => true | _ => false end.
Definition is_EvProxy (e : event) : bool := match e with EvProxy _ _ => true | _ => false end.
Definition is_EvRequest (e : event) : bool := match e with EvRequest _ _ => true | _ => false end.
Definition is_EvValidateSignature (e : event) : bool :=
  match e with EvValidateSignature _ _ => true | _ => false end.

(** The request was handled as a return leg: its signature was put to
    validation.  It was handled as an outbound leg: signed parameters were
    requested for it. *)
Definition return_leg (t : list event) : Prop :=
  exists h f, In (EvValidateSignature h f) t.
Definition outbound_leg (t : list event) : Prop :=
  exists u f, In (EvRequest u f) t.

Definition is_EvLookup (e : event) : bool :=
  match e with EvLookup _ => true | _ => false end.


End handlers.

(** ** Concrete writers, used to run the definitions *)

Module scenario.

Import http.

(** A writer with the three methods of [http.ResponseWriter] and nothing
    else; its [Write] accepts all bytes. *)
Definition plain_writer : ResponseWriter :=
  {| rw_header := ∅; rw_calls := [];
     rw_write_result := fun _ b => (Z.of_nat (String.length b), None);
     rw_Flusher := false; rw_Hijacker := None; rw_CloseNotifier := None |}.

(** The same, with a [Flush] method. *)
Definition flushing_writer : ResponseWriter :=
  {| rw_header := ∅; rw_calls := [];
     rw_write_result := fun _ b => (Z.of_nat (String.length b), None);
     rw_Flusher := true; rw_Hijacker := None; rw_CloseNotifier := None |}.

(** A writer with all three optional interfaces; it notifies on channel 0
    and hands out connection 7 with buffer 7. *)
Definition full_writer : ResponseWriter :=
  {| rw_header := ∅; rw_calls := [];
     rw_write_result := fun _ b => (Z.of_nat (String.length b), None);
     rw_Flusher := true;
     rw_Hijacker := Some (fun _ => (Some 7%nat, Some 7%nat, None));
     rw_CloseNotifier := Some (0%nat, RecvOnly) |}.

Definition state_around (w0 : ResponseWriter) (h : gochan.heap) : utils.state :=
  {| utils.self := {| utils.w := w0; utils.status := 0; utils.size := 0;
                      utils.flusher := true; utils.done := false |};
     utils.console := [];
     utils.chans := h |}.

(** The process of [full_writer]: channel 0 exists, the server holds both
    of its ends. *)
Definition server_heap : gochan.heap :=
  {| gochan.made := 1; gochan.held := [(0%nat, Bidi); (0%nat, RecvOnly)];
     gochan.delivered := [] |}.

(** A handler set up as in the scenario of the design: the pool's route
    service is [https://rs.example.com/rs], HTTPS is recommended, the
    signing collaborator always succeeds, and a signature is valid when it
    reads [good]. *)

Definition names : routeservice.header_names :=
{| routeservice.RouteServiceSignature := "X-CF-Proxy-Signature";
   routeservice.RouteServiceMetadata := "X-CF-Proxy-Metadata";
   routeservice.RouteServiceForwardedURL := "X-CF-Forwarded-Url" |}.

Definition cfg (enabled : bool) : routeservice.RouteServiceConfig :=
{| routeservice.RouteServiceEnabled := enabled;
   routeservice.RouteServiceRecommendHttps := true;
   routeservice.ValidateSignature := fun h _ =>
     (h, if String.eqb (Header.Get h "X-CF-Proxy-Signature") "good"
         then None else Some "invalid signature");
   routeservice.Request := fun u f =>
     ({| routeservice.URLString := u;
         routeservice.Signature := "sig";
         routeservice.Metadata := "meta";
         routeservice.ForwardedURL := f;
         routeservice.ParsedUrl := {| url.Host := "rs.example.com"; url.Path := "/rs" |} |},
      None) |}.

(** The registry knows one internally hosted route service, or none. *)
Definition handler (enabled internal : bool) : handlers.routeService :=
{| handlers.routeRegistry := fun u =>
     if internal && String.eqb u "rs.example.com/rs"
     then Some {| route.RouteServiceUrl := ""; route.IsEmpty := false |}
     else None;
   handlers.rsReverseProxy := fun w _ => http.WriteHeader w 200;
   handlers.config := cfg enabled |}.

Definition app_pool : route.Pool :=
{| route.RouteServiceUrl := "https://rs.example.com/rs"; route.IsEmpty := false |}.

Definition request (h : gmap string (list string)) : handlers.Request :=
{| handlers.Header := h;
   handlers.Host := "app.example.com";
   handlers.RequestURI := "/foo";
   handlers.ctx := [(handlers.StringKey "RoutePool", handlers.PoolPtr (Some app_pool))] |}.

Definition next : handlers.HandlerFunc := fun w _ => http.WriteHeader w 204.

End scenario.

(** A route service that sends the request back: the signing collaborator
    issues the signature [good], which the validation accepts. *)

Module roundtrip.

Import http.

Definition cfg : routeservice.RouteServiceConfig :=
{| routeservice.RouteServiceEnabled := true;
   routeservice.RouteServiceRecommendHttps := false;
   routeservice.ValidateSignature := fun h _ =>
     (h, if String.eqb (Header.Get h "X-CF-Proxy-Signature") "good"
         then None else Some "invalid signature");
   routeservice.Request := fun u f =>
     ({| routeservice.URLString := u;
         routeservice.Signature := "good";
         routeservice.Metadata := "meta";
         routeservice.ForwardedURL := f;
         routeservice.ParsedUrl := {| url.Host := "rs.example.com"; url.Path := "/rs" |} |},
      None) |}.

Definition handler : handlers.routeService :=
{| handlers.routeRegistry := fun _ => None;
   handlers.rsReverseProxy := fun w _ => http.WriteHeader w 200;
   handlers.config := cfg |}.


(** A request that went through a stage which left no route pool, and one
    whose context holds a URL where the pool should be. *)
Definition request_without_pool : handlers.Request :=
{| handlers.Header := ∅;
   handlers.Host := "app.example.com:8080";
   handlers.RequestURI := "/foo";
   handlers.ctx := [(handlers.StringKey "AccessLogRecord", handlers.Other "alr")] |}.

Definition request_with_wrong_pool : handlers.Request :=
{| handlers.Header := ∅;
   handlers.Host := "app.example.com:8080";
   handlers.RequestURI := "/foo";
   handlers.ctx :=
     [(handlers.StringKey "RoutePool",
       handlers.URLPtr {| url.Host := "rs.example.com"; url.Path := "/rs" |})] |}.

(** A wrapped writer that takes at most three bytes at a time and reports an
    error when it was given more. *)
Definition short_writer : ResponseWriter :=
{| rw_header := {["Content-Type" := ["text/html"]]}; rw_calls := [];
   rw_write_result := fun _ b =>
     if (String.length b <=? 3)%nat then (Z.of_nat (String.length b), None)
     else (3, Some "short write");
   rw_Flusher := true; rw_Hijacker := None; rw_CloseNotifier := None |}.

End roundtrip.

(** * Properties *)

Local Open Scope list_scope.

(** ** Header maps *)

Section HeaderFacts.

Import http.
Variable h : gmap string (list string).

Lemma Get_absent key : ~ Header.present h key -> Header.Get h key = "".
Proof.
  unfold Header.present, Header.Get. intros Hn.
  destruct (h !! textproto.CanonicalMIMEHeaderKey key) eqn:E; [|reflexivity].
  exfalso. apply Hn. eauto.
Qed.

Lemma Get_Set key v : Header.Get (Header.Set_ h key v) key = v.
Proof. unfold Header.Get, Header.Set_. now rewrite lookup_insert_eq. Qed.

Lemma Get_Set_other key key' v :
  textproto.CanonicalMIMEHeaderKey key <> textproto.CanonicalMIMEHeaderKey key' ->
  Header.Get (Header.Set_ h key v) key' = Header.Get h key'.
Proof. intros Hne. unfold Header.Get, Header.Set_. now rewrite lookup_insert_ne. Qed.

Lemma absent_Del key : ~ Header.present (Header.Del h key) key.
Proof.
  unfold Header.present, Header.Del. rewrite lookup_delete_eq.
  intros [x Hx]. discriminate.
Qed.

Lemma absent_Del_other key key' :
  ~ Header.present h key' -> ~ Header.present (Header.Del h key) key'.
Proof.
  unfold Header.present, Header.Del. intros Hn [x Hx]. apply Hn.
  rewrite lookup_delete in Hx. case_decide; [discriminate | eauto].
Qed.

End HeaderFacts.

(** ** Channels: an end that cannot send stays silent *)

Section ChannelFacts.

Import http gochan.

Lemma step_wf h h' : step h h' -> wf h -> wf h'.
Proof.
  intros Hs [Hh Hd].
  destruct Hs; split; simpl; intros m x Hin;
    try (destruct Hin as [E | Hin]; [inversion E; subst; clear E|]);
    first [ lia | now eauto | apply Nat.lt_lt_succ_r; now eauto ].
Qed.

Lemma step_mute n h h' : step h h' -> mute n h -> mute n h'.
Proof.
  intros Hs (Hlt & Hheld & Hsil). destruct Hs; unfold mute, silent in *; simpl.
  - split; [lia|]. split; [|assumption].
    intros d [E | Hin]; [inversion E; lia | eauto].
  - split; [assumption|]. split; [|assumption].
    intros d' [E | Hin]; [|now eauto].
    inversion E; subst. apply Hheld in H. discriminate.
  - split; [assumption|]. split; [|assumption]. eauto.
  - split; [assumption|]. split; [assumption|].
    intros v' [E | Hin]; [|eapply Hsil; eauto].
    inversion E; subst. apply Hheld in H. subst. discriminate.
  - split; [assumption|]. split; [assumption|].
    intros v' [E | Hin]; [|eapply Hsil; eauto].
    inversion E; subst. apply Hheld in H. subst. discriminate.
Qed.

Lemma steps_mute n h h' : steps h h' -> mute n h -> silent n h'.
Proof.
  induction 1 as [h | h1 h2 h3 H12 H23 IH]; intros Hm.
  - apply Hm.
  - apply IH. eapply step_mute; eauto.
Qed.

Lemma steps_trans h1 h2 h3 : steps h1 h2 -> steps h2 h3 -> steps h1 h3.
Proof.
  induction 1; [auto|]. intros. econstructor; eauto.
Qed.

(** A channel freshly made and handed out receive-only is mute. *)
Lemma make_recv_only_mute h :
  wf h ->
  mute (made h) (publish (recv_only (fst (make h))) (snd (make h))).
Proof.
  intros [Hh Hd]. unfold mute, silent; simpl. split; [lia|]. split.
  - intros d [E | Hin]; [now inversion E|]. apply Hh in Hin. lia.
  - intros v Hin. apply Hd in Hin. lia.
Qed.

End ChannelFacts.

(** ** The proxy response writer *)

Section ResponseWriterFacts.

Import http utils.

Lemma filter_snoc_false (f : call -> bool) l c :
  f c = false -> List.filter f (l ++ [c]) = List.filter f l.
Proof. intros H. rewrite List.filter_app. simpl. rewrite H. apply app_nil_r. Qed.

Lemma WriteHeader_done s st :
  done (self st) = true ->
  self (WriteHeader s st) = self st /\ chans (WriteHeader s st) = chans st.
Proof. intros Hd. unfold WriteHeader. simpl. rewrite Hd. auto. Qed.

Lemma Write_done b st :
  done (self st) = true -> Write b st = ((0, None), st).
Proof. intros Hd. unfold Write. now rewrite Hd. Qed.

(** A [WriteHeader] on a writer that is not done is forwarded, and records
    its status only when none is recorded. *)
Lemma WriteHeader_live s st :
  done (self st) = false ->
  forwarded (WriteHeader s st) = forwarded st ++ [CallWriteHeader s] /\
  Status (WriteHeader s st) = (if Z.eqb (Status st) 0 then s else Status st) /\
  Size (WriteHeader s st) = Size st /\
  done (self (WriteHeader s st)) = false /\
  flusher (self (WriteHeader s st)) = flusher (self st).
Proof.
  intros Hd. unfold WriteHeader, forwarded, Status, Size. simpl. rewrite Hd. simpl.
  repeat split; try assumption.
  destruct (rw_header (w (self st)) !! "Content-Type"); reflexivity.
Qed.

(** A [Write] on a writer that is not done: the implied header write when
    no status is recorded, then the bytes. *)
Lemma Write_live b st :
  done (self st) = false ->
  forwarded (snd (Write b st)) =
    forwarded st
      ++ (if Z.eqb (Status st) 0 then [CallWriteHeader StatusOK] else [])
      ++ [CallWrite b] /\
  Status (snd (Write b st)) = (if Z.eqb (Status st) 0 then StatusOK else Status st) /\
  done (self (snd (Write b st))) = false /\
  flusher (self (snd (Write b st))) = flusher (self st).
Proof.
  intros Hd. unfold Write, Status. rewrite Hd.
  destruct (Z.eqb (status (self st)) 0) eqn:E.
  - set (st1 := print _ st).
    assert (Hd1 : done (self st1) = false) by exact Hd.
    destruct (WriteHeader_live StatusOK st1 Hd1) as (Hf & Hs & _ & Hdn & Hfl).
    unfold forwarded, Status in *. simpl.
    rewrite Hf, Hs, Hdn, Hfl. subst st1. simpl. rewrite E.
    rewrite <- app_assoc. auto.
  - unfold forwarded. simpl. auto.
Qed.

(** Once the writer is done, no use of it changes the recorded status or
    size, clears the flag, or sends a [Write] or [WriteHeader] on. *)
Lemma run_op_done o st :
  done (self st) = true ->
  done (self (run_op o st)) = true /\
  Status (run_op o st) = Status st /\
  Size (run_op o st) = Size st /\
  forwarded_writes (run_op o st) = forwarded_writes st.
Proof.
  intros Hd. unfold forwarded_writes, forwarded, Status, Size.
  destruct o; simpl.
  - auto.
  - unfold Hijack. destruct (rw_Hijacker (w (self st))); simpl; auto.
    rewrite filter_snoc_false; auto.
  - rewrite Write_done by assumption. simpl. auto.
  - destruct (WriteHeader_done s st Hd) as [-> _]. auto.
  - auto.
  - unfold Flush. destruct (flusher (self st)); simpl; auto.
    rewrite filter_snoc_false; auto.
  - auto.
  - auto.
  - unfold CloseNotify. destruct (rw_CloseNotifier (w (self st))); simpl; auto.
    rewrite filter_snoc_false; auto.
Qed.

Lemma run_ops_done os : forall st,
  done (self st) = true ->
  done (self (run_ops os st)) = true /\
  Status (run_ops os st) = Status st /\
  Size (run_ops os st) = Size st /\
  forwarded_writes (run_ops os st) = forwarded_writes st.
Proof.
  induction os as [| o os IH]; intros st Hd; simpl.
  - auto.
  - destruct (run_op_done o st Hd) as (Hd1 & Hs1 & Hz1 & Hf1).
    destruct (IH (run_op o st) Hd1) as (Hd2 & Hs2 & Hz2 & Hf2).
    rewrite Hs2, Hz2, Hf2. auto.
Qed.

End ResponseWriterFacts.

Section ResponseWriterClaims.

Import http utils.

(** C4, at the failing input: a writer whose dynamic type has no [Flush]
    method cannot be wrapped.  The type assertion in
    [NewProxyResponseWriter] has the single-value form and panics, so the
    [nil] test in [Flush] is never reached with such a writer. *)
Theorem NewProxyResponseWriter_panics_without_Flusher :
  rw_Flusher scenario.plain_writer = false /\
  NewProxyResponseWriter scenario.plain_writer =
    Panics "interface conversion: http.ResponseWriter is not http.Flusher: missing method Flush" /\
  fresh scenario.plain_writer =
    Panics "interface conversion: http.ResponseWriter is not http.Flusher: missing method Flush".
Proof. repeat split. Qed.

(** The constructor panics on every writer without [Flush], and only on
    those; what it returns otherwise always has a flusher. *)
Lemma NewProxyResponseWriter_spec w0 :
  (rw_Flusher w0 = false -> exists msg, NewProxyResponseWriter w0 = Panics msg) /\
  (rw_Flusher w0 = true ->
     exists p, NewProxyResponseWriter w0 = Returns p /\ flusher p = true /\ w p = w0).
Proof.
  unfold NewProxyResponseWriter. split; intros ->; eauto.
Qed.

(** [Flush] on a constructed-by-hand writer whose flusher is [nil] does
    nothing; with a flusher it is forwarded. *)
Lemma Flush_spec st :
  (flusher (self st) = false -> Flush st = st) /\
  (flusher (self st) = true -> forwarded (Flush st) = forwarded st ++ [CallFlush]).
Proof. unfold Flush, forwarded. split; intros ->; reflexivity. Qed.

Lemma writes_frozen_after_Done os st :
  forwarded_writes (run_ops os (Done st)) = forwarded_writes st.
Proof.
  assert (Hd : done (self (Done st)) = true) by reflexivity.
  now destruct (run_ops_done os (Done st) Hd) as (_ & _ & _ & Hf).
Qed.

(** X15: [Done] freezes the writer.  Once [Done()] has been called,
    whatever is done with the writer afterwards, the recorded status and the
    cumulative size stay what they were and no [Write] or [WriteHeader]
    reaches the wrapped writer; a [Write] then returns zero bytes and no
    error and changes nothing at all, and a [WriteHeader] leaves the writer,
    the wrapped writer and its header map as they are and only prints its
    debug line and stack trace on the console. *)
Theorem Done_freezes_writer (st : state) (os : list op) :
  let st' := run_ops os (Done st) in
  done (self st') = true /\
  Status st' = Status st /\
  Size st' = Size st /\
  forwarded_writes st' = forwarded_writes st /\
  (forall b, Write b st' = ((0, None), st')) /\
  (forall s, self (WriteHeader s st') = self st' /\
             chans (WriteHeader s st') = chans st' /\
             console (WriteHeader s st')
             = console st'
                 ++ [Println "proxy-response-writer-writing-status-code" s; PrintStack]).
Proof.
  intros st'.
  assert (Hd : done (self (Done st)) = true) by reflexivity.
  destruct (run_ops_done os (Done st) Hd) as (Hd' & Hs & Hz & Hf).
  fold st' in Hd', Hs, Hz, Hf.
  repeat split; try assumption.
  - intros b. now apply Write_done.
  - now apply WriteHeader_done.
  - now apply WriteHeader_done.
  - unfold WriteHeader. simpl. rewrite Hd'. simpl. now rewrite <- app_assoc.
Qed.

(** C5, at the failing input: [WriteHeader] prints its debug line and the
    stack trace before it tests the completion flag, so a [WriteHeader] after
    [Done()] is observable on the console although it changes nothing of the
    writer.  [Write], the sibling method, tests the flag first: after
    [Done()] it does nothing at all. *)
Theorem WriteHeader_after_Done_prints :
  let st := Done (scenario.state_around scenario.flushing_writer gochan.empty) in
  done (self st) = true /\
  console (WriteHeader 500 st)
  = console st ++ [Println "proxy-response-writer-writing-status-code" 500; PrintStack] /\
  WriteHeader 500 st <> st /\
  self (WriteHeader 500 st) = self st /\
  Write "a" st = ((0, None), st).
Proof.
  intros st. split; [reflexivity|]. split; [reflexivity|]. split; [|split; reflexivity].
  intros H. apply (f_equal console) in H. discriminate H.
Qed.

(** C8 as stated fails when the first [WriteHeader] is given 0: nothing is
    recorded, and the next [WriteHeader] changes the recorded status. *)
Lemma first_WriteHeader_zero_not_kept :
  let st := scenario.state_around scenario.flushing_writer gochan.empty in
  done (self st) = false /\
  Status (WriteHeader 0 st) = 0 /\
  Status (WriteHeader 404 (WriteHeader 0 st)) = 404 /\
  Status (WriteHeader 404 (WriteHeader 0 st)) <> Status (WriteHeader 0 st) /\
  forwarded (WriteHeader 404 (WriteHeader 0 st)) = [CallWriteHeader 0; CallWriteHeader 404].
Proof. vm_compute. repeat split; discriminate. Qed.

End ResponseWriterClaims.

Section ResponseWriterCapabilities.

Import http utils.

(** Using the writer does to the channels only what a program may do. *)
Lemma run_op_steps o st : gochan.steps (chans st) (chans (run_op o st)).
Proof.
  destruct o; simpl; try apply gochan.steps_refl.
  - unfold Hijack. destruct (rw_Hijacker _); apply gochan.steps_refl.
  - unfold Write. destruct (done (self st)); [apply gochan.steps_refl|].
    destruct (Z.eqb _ 0); simpl; [|apply gochan.steps_refl].
    unfold WriteHeader. simpl. destruct (done (self st)); apply gochan.steps_refl.
  - unfold WriteHeader. simpl. destruct (done (self st)); apply gochan.steps_refl.
  - unfold Flush. destruct (flusher _); apply gochan.steps_refl.
  - unfold CloseNotify. destruct (rw_CloseNotifier _); simpl; [apply gochan.steps_refl|].
    set (h := chans st).
    assert (Hsub : forall c,
               In c ((gochan.made h, RecvOnly) :: gochan.held h) ->
               In c ((gochan.made h, RecvOnly) :: (gochan.made h, Bidi) :: gochan.held h))
      by (intros c [E | Hin]; simpl; auto).
    exact (gochan.steps_cons _ _ _ (gochan.step_make h)
             (gochan.steps_cons _ _ _
                (gochan.step_restrict
                   (gochan.publish (fst (gochan.make h)) (snd (gochan.make h)))
                   (gochan.made h) RecvOnly (or_introl eq_refl))
                (gochan.steps_cons _ _ _
                   (gochan.step_forget
                      (gochan.publish (gochan.made h, RecvOnly)
                         (gochan.publish (fst (gochan.make h)) (snd (gochan.make h))))
                      ((gochan.made h, RecvOnly) :: gochan.held h) Hsub)
                   (gochan.steps_refl _)))).
Qed.

Lemma run_ops_steps os : forall st, gochan.steps (chans st) (chans (run_ops os st)).
Proof.
  induction os as [| o os IH]; intros st; simpl.
  - apply gochan.steps_refl.
  - eapply steps_trans; [apply run_op_steps | apply IH].
Qed.

(** C9: when the wrapped writer has no close notification, [CloseNotify()]
    returns a channel (not an error), receive-only and new, without calling
    the wrapped writer; whatever is done with the writer afterwards and
    whatever the program then does with its channels, no value is ever
    received on it.  When the wrapped writer has close notification, the
    call is forwarded and its channel returned. *)
Theorem CloseNotify_silent_or_forwarded (st : state) :
  (rw_CloseNotifier (w (self st)) = None ->
   gochan.wf (chans st) ->
   let c := fst (CloseNotify st) in
   let st' := snd (CloseNotify st) in
   snd c = RecvOnly /\
   self st' = self st /\
   forall os h,
     gochan.steps (chans (run_ops os st')) h -> gochan.silent (fst c) h) /\
  (forall c0,
     rw_CloseNotifier (w (self st)) = Some c0 ->
     fst (CloseNotify st) = c0 /\
     forwarded (snd (CloseNotify st)) = forwarded st ++ [CallCloseNotify] /\
     chans (snd (CloseNotify st)) = chans st).
Proof.
  unfold CloseNotify, forwarded. split.
  - intros Hn Hwf. rewrite Hn. simpl. split; [reflexivity|]. split; [reflexivity|].
    intros os h Hsteps.
    eapply steps_mute.
    + eapply steps_trans; [apply run_ops_steps | exact Hsteps].
    + simpl. apply (make_recv_only_mute (chans st) Hwf).
  - intros c0 Hc. rewrite Hc. simpl. auto.
Qed.

Lemma CloseNotify_silent_or_forwarded_witness :
  (let st := scenario.state_around scenario.flushing_writer gochan.empty in
   let st' := snd (CloseNotify st) in
   fst (CloseNotify st) = (0%nat, RecvOnly) /\
   gochan.silent 0 (chans (run_ops [OpWrite "a"; OpCloseNotify] st'))) /\
  (let st := scenario.state_around scenario.full_writer scenario.server_heap in
   fst (CloseNotify st) = (0%nat, RecvOnly) /\
   forwarded (snd (CloseNotify st)) = [CallCloseNotify]).
Proof.
  split.
  - intros st st'. split; [reflexivity|].
    assert (Hwf : gochan.wf (chans st)) by (split; simpl; intros ? ? []).
    destruct (proj1 (CloseNotify_silent_or_forwarded st) eq_refl Hwf) as (_ & _ & H).
    apply (H [OpWrite "a"; OpCloseNotify]). apply gochan.steps_refl.
  - intros st.
    destruct (proj2 (CloseNotify_silent_or_forwarded st) (0%nat, RecvOnly) eq_refl)
      as (H1 & H2 & _).
    split; [exact H1 | exact H2].
Defined.

(** C10: a successful [Hijack()] is forwarded to the wrapped writer and
    changes nothing of the proxy writer: the completion flag, the recorded
    status and the size are what they were.  If the writer was not done,
    [WriteHeader] and [Write] still reach the wrapped writer afterwards;
    they stop doing so only once [Done()] is called. *)
Theorem Hijack_leaves_writer_open (st : state) hj conn buf :
  rw_Hijacker (w (self st)) = Some hj ->
  hj (forwarded st) = (conn, buf, None) ->
  let st' := snd (Hijack st) in
  fst (Hijack st) = (conn, buf, None) /\
  forwarded st' = forwarded st ++ [CallHijack] /\
  (done (self st') = done (self st) /\
   Status st' = Status st /\
   Size st' = Size st /\
   flusher (self st') = flusher (self st) /\
   rw_header (w (self st')) = rw_header (w (self st)) /\
   console st' = console st /\
   chans st' = chans st) /\
  (done (self st) = false ->
   (forall s, forwarded (WriteHeader s st') = forwarded st' ++ [CallWriteHeader s]) /\
   (forall b, exists pre, forwarded (snd (Write b st')) = pre ++ [CallWrite b])) /\
  (forall os, forwarded_writes (run_ops os (Done st')) = forwarded_writes st).
Proof.
  intros Hh Hok st'. subst st'. unfold Hijack, forwarded in *. rewrite Hh. simpl.
  rewrite Hok. split; [reflexivity|]. split; [reflexivity|].
  split; [repeat split|]. split.
  - intros Hd.
    set (st' := set_self st (set_w (self st) (record_call (w (self st)) CallHijack))).
    assert (Hd' : done (self st') = false) by exact Hd.
    split.
    + intros s. apply (WriteHeader_live s st' Hd').
    + intros b. destruct (Write_live b st' Hd') as (Hf & _).
      unfold forwarded in Hf. rewrite Hf. rewrite app_assoc. eauto.
  - intros os.
    set (st' := set_self st (set_w (self st) (record_call (w (self st)) CallHijack))).
    rewrite (writes_frozen_after_Done os st').
    unfold forwarded_writes, forwarded. simpl. now rewrite filter_snoc_false.
Qed.

Lemma Hijack_leaves_writer_open_witness :
  let st := scenario.state_around scenario.full_writer scenario.server_heap in
  let st' := snd (Hijack st) in
  fst (Hijack st) = (Some 7%nat, Some 7%nat, None) /\
  done (self st') = false /\
  forwarded (WriteHeader 101 st') = [CallHijack; CallWriteHeader 101].
Proof.
  intros st st'.
  destruct (Hijack_leaves_writer_open st (fun _ => (Some 7%nat, Some 7%nat, None))
              (Some 7%nat) (Some 7%nat) eq_refl eq_refl)
    as (H1 & _ & (H2 & _) & H3 & _).
  split; [exact H1|]. split; [exact H2|].
  exact (proj1 (H3 eq_refl) 101).
Defined.

End ResponseWriterCapabilities.

(** ** The route-service middleware *)

Section RouteServiceFacts.

Import http handlers.

Variable names : routeservice.header_names.
Variable r : routeService.
Variable rw0 : ResponseWriter.
Variable req : Request.
Variable next : HandlerFunc.
Variable pool : route.Pool.

Let sigKey := routeservice.RouteServiceSignature names.
Let metaKey := routeservice.RouteServiceMetadata names.
Let fwdKey := routeservice.RouteServiceForwardedURL names.
Let fwd := forwardedURLRaw r req.
Let rsUrl := route.RouteServiceUrl pool.

Hypothesis Hpool : Value (ctx req) (StringKey "RoutePool") = Some (PoolPtr (Some pool)).

Lemma serve_empty_url :
  rsUrl = "" ->
  serve names r rw0 req next
  = (Returns tt, {| rw := next rw0 req; trace := [EvNext rw0 req] |}).
Proof.
  unfold rsUrl. intros Hu. unfold serve, ServeHTTP. rewrite Hpool, Hu. reflexivity.
Qed.

Lemma serve_disabled :
  rsUrl <> "" ->
  routeservice.RouteServiceEnabled (config r) = false ->
  serve names r rw0 req next
  = (Returns tt,
     {| rw := snd (http.Write
                (http.WriteHeader
                   (with_header rw0
                      (Header.Set_ (rw_header rw0) "X-Cf-RouterError" "route_service_unsupported"))
                   StatusBadGateway)
                "Support for route services is disabled.");
        trace := [EvLog "info" "route-service-unsupported" None] |}).
Proof.
  unfold rsUrl. intros Hu He. unfold serve, ServeHTTP. rewrite Hpool, He.
  apply String.eqb_neq in Hu. rewrite Hu. reflexivity.
Qed.

(** With route services enabled and a route-service URL, the handler runs
    the block and calls [next] when the block falls through. *)
Lemma serve_enabled :
  rsUrl <> "" ->
  routeservice.RouteServiceEnabled (config r) = true ->
  serve names r rw0 req next
  = bind (routeServiceBlock names r rsUrl (Value (ctx req) (StringKey "AccessLogRecord")) req)
      (fun fl => match fl with
                 | Return => ret tt
                 | FallThrough req' => call_handler EvNext next req'
                 end)
      {| rw := rw0; trace := [] |}.
Proof.
  unfold rsUrl. intros Hu He. unfold serve, ServeHTTP. rewrite Hpool, He.
  apply String.eqb_neq in Hu. rewrite Hu. reflexivity.
Qed.

Lemma hasBeenToRouteService_iff :
  rsUrl <> "" ->
  hasBeenToRouteService rsUrl (Header.Get (Header req) sigKey)
  = negb (String.eqb (Header.Get (Header req) sigKey) "").
Proof.
  intros Hu. unfold hasBeenToRouteService. apply String.eqb_neq in Hu. rewrite Hu.
  apply andb_true_r.
Qed.

(** Return leg, signature rejected. *)
Lemma serve_return_leg_invalid h' e :
  rsUrl <> "" ->
  routeservice.RouteServiceEnabled (config r) = true ->
  Header.Get (Header req) sigKey <> "" ->
  routeservice.ValidateSignature (config r) (Header req) fwd = (h', Some e) ->
  serve names r rw0 req next
  = (Returns tt,
     {| rw := snd (http.Write (http.WriteHeader rw0 StatusBadRequest)
                     "Failed to validate Route Service Signature");
        trace := [EvValidateSignature (Header req) fwd;
                  EvLog "error" "signature-validation-failed" (Some e)] |}).
Proof.
  intros Hu He Hs Hv. rewrite (serve_enabled Hu He).
  unfold routeServiceBlock. fold sigKey. rewrite (hasBeenToRouteService_iff Hu).
  apply String.eqb_neq in Hs. rewrite Hs. simpl. fold fwd.
  unfold bind at 1 2. simpl. rewrite Hv. reflexivity.
Qed.

(** Return leg, signature accepted. *)
Lemma serve_return_leg_valid h' :
  rsUrl <> "" ->
  routeservice.RouteServiceEnabled (config r) = true ->
  Header.Get (Header req) sigKey <> "" ->
  routeservice.ValidateSignature (config r) (Header req) fwd = (h', None) ->
  let req' :=
    with_Header req (Header.Del (Header.Del (Header.Del h' sigKey) metaKey) fwdKey) in
  serve names r rw0 req next
  = (Returns tt,
     {| rw := next rw0 req';
        trace := [EvValidateSignature (Header req) fwd; EvNext rw0 req'] |}).
Proof.
  intros Hu He Hs Hv. rewrite (serve_enabled Hu He).
  unfold routeServiceBlock. fold sigKey metaKey fwdKey. rewrite (hasBeenToRouteService_iff Hu).
  apply String.eqb_neq in Hs. rewrite Hs. simpl. fold fwd.
  unfold bind at 1 2. simpl. rewrite Hv. reflexivity.
Qed.

(** Outbound leg, signing failed. *)
Lemma serve_outbound_failed args e :
  rsUrl <> "" ->
  routeservice.RouteServiceEnabled (config r) = true ->
  Header.Get (Header req) sigKey = "" ->
  routeservice.Request (config r) rsUrl fwd = (args, Some e) ->
  serve names r rw0 req next
  = (Returns tt,
     {| rw := snd (http.Write (http.WriteHeader rw0 StatusInternalServerError)
                     "Route service request failed.");
        trace := [EvRequest rsUrl fwd; EvLog "error" "route-service-failed" (Some e)] |}).
Proof.
  intros Hu He Hs Hq. rewrite (serve_enabled Hu He).
  unfold routeServiceBlock. fold sigKey. rewrite (hasBeenToRouteService_iff Hu).
  rewrite Hs. simpl. fold fwd.
  unfold bind at 1 2. simpl. rewrite Hq. reflexivity.
Qed.

(** Outbound leg, signing succeeded. *)
Lemma serve_outbound_signed args :
  rsUrl <> "" ->
  routeservice.RouteServiceEnabled (config r) = true ->
  Header.Get (Header req) sigKey = "" ->
  routeservice.Request (config r) rsUrl fwd = (args, None) ->
  let uri := (url.Host (routeservice.ParsedUrl args)
                ++ url.Path (routeservice.ParsedUrl args))%string in
  let out := outgoing names r req args in
  serve names r rw0 req next
  = (Returns tt,
     if nil_or_empty (routeRegistry r uri)
     then {| rw := rsReverseProxy r rw0 out;
             trace := [EvRequest rsUrl fwd; EvLookup uri; EvProxy rw0 out] |}
     else {| rw := next rw0 out;
             trace := [EvRequest rsUrl fwd; EvLookup uri; EvNext rw0 out] |}).
Proof.
  intros Hu He Hs Hq uri out. subst out. rewrite (serve_enabled Hu He).
  unfold routeServiceBlock. fold sigKey metaKey fwdKey. rewrite (hasBeenToRouteService_iff Hu).
  rewrite Hs. simpl. fold fwd.
  unfold bind at 1 2. simpl. rewrite Hq. simpl.
  unfold bind at 1 2. simpl. fold uri. unfold outgoing. fold sigKey metaKey fwdKey uri.
  destruct (nil_or_empty (routeRegistry r uri)); reflexivity.
Qed.

End RouteServiceFacts.

Section RouteServiceClaims.

Import http handlers.

(** C7: with an empty route-service URL the handler calls [next] once, with
    the response writer and the request exactly as it received them, and does
    nothing else, whatever the configuration and the headers are. *)
Theorem empty_url_passes_through names r rw0 req next pool :
  Value (ctx req) (StringKey "RoutePool") = Some (PoolPtr (Some pool)) ->
  route.RouteServiceUrl pool = "" ->
  serve names r rw0 req next
  = (Returns tt, {| rw := next rw0 req; trace := [EvNext rw0 req] |}).
Proof. intros Hp Hu. now apply serve_empty_url with (pool := pool). Qed.

Lemma empty_url_passes_through_witness :
  let req := {| Header := {["X-Cf-Proxy-Signature" := ["forged"]]};
                Host := "app.example.com"; RequestURI := "/foo";
                ctx := [(StringKey "RoutePool",
                         PoolPtr (Some {| route.RouteServiceUrl := "";
                                          route.IsEmpty := false |}))] |} in
  trace (snd (serve scenario.names (scenario.handler false false)
                scenario.flushing_writer req scenario.next))
  = [EvNext scenario.flushing_writer req].
Proof.
  intros req.
  rewrite (empty_url_passes_through scenario.names (scenario.handler false false)
             scenario.flushing_writer req scenario.next
             {| route.RouteServiceUrl := ""; route.IsEmpty := false |}
             eq_refl eq_refl).
  reflexivity.
Defined.

(** C6: with a route-service URL and route services disabled, the handler
    answers 502 with the header [X-Cf-RouterError: route_service_unsupported]
    and the body [Support for route services is disabled.], and calls
    neither [next] nor the route-service proxy. *)
Theorem disabled_route_service_502 names r rw0 req next pool :
  Value (ctx req) (StringKey "RoutePool") = Some (PoolPtr (Some pool)) ->
  route.RouteServiceUrl pool <> "" ->
  routeservice.RouteServiceEnabled (config r) = false ->
  let res := serve names r rw0 req next in
  fst res = Returns tt /\
  rw_calls (rw (snd res))
  = rw_calls rw0 ++ [CallWriteHeader 502;
                     CallWrite "Support for route services is disabled."] /\
  Header.Get (rw_header (rw (snd res))) "X-Cf-RouterError" = "route_service_unsupported" /\
  List.filter is_EvNext (trace (snd res)) = [] /\
  List.filter is_EvProxy (trace (snd res)) = [].
Proof.
  intros Hp Hu He res. subst res.
  rewrite (serve_disabled names r rw0 req next pool Hp Hu He). simpl.
  repeat split.
  - now rewrite <- app_assoc.
  - apply Get_Set.
Qed.

Lemma disabled_route_service_502_witness :
  rw_calls (rw (snd (serve scenario.names (scenario.handler false false)
                       scenario.flushing_writer (scenario.request ∅) scenario.next)))
  = [CallWriteHeader 502; CallWrite "Support for route services is disabled."].
Proof.
  exact (proj1 (proj2
    (disabled_route_service_502 scenario.names (scenario.handler false false)
       scenario.flushing_writer (scenario.request ∅) scenario.next scenario.app_pool
       eq_refl ltac:(discriminate) eq_refl))).
Defined.

(** C1 as stated fails in two ways.  A signature header that is present
    with an empty value is not taken for a return leg: nothing is validated
    and signed parameters are requested.  And while route services are
    disabled, a request with a route-service URL and an invalid signature is
    answered 502, not 400, and is never classified. *)
Lemma return_leg_needs_value_and_enabled :
  (let req := scenario.request {["X-Cf-Proxy-Signature" := [""]]} in
   let res := serve scenario.names (scenario.handler true false)
                scenario.flushing_writer req scenario.next in
   Header.present (Header req) "X-CF-Proxy-Signature" /\
   List.filter is_EvValidateSignature (trace (snd res)) = [] /\
   List.filter is_EvRequest (trace (snd res))
   = [EvRequest "https://rs.example.com/rs" "https://app.example.com/foo"]) /\
  (let req := scenario.request {["X-Cf-Proxy-Signature" := ["forged"]]} in
   let res := serve scenario.names (scenario.handler false false)
                scenario.flushing_writer req scenario.next in
   Header.present (Header req) "X-CF-Proxy-Signature" /\
   List.filter is_EvValidateSignature (trace (snd res)) = [] /\
   rw_calls (rw (snd res))
   = [CallWriteHeader 502; CallWrite "Support for route services is disabled."]).
Proof.
  split; (split; [eexists; vm_compute; reflexivity | split; vm_compute; reflexivity]).
Qed.

(** C1, amended: for a request whose pool has a route-service URL, with
    route services enabled, the handler takes the request for a return leg
    exactly when [Header.Get] finds a non-empty signature (the first value of
    the signature header), whatever the validation then says, and for an
    outbound leg otherwise; in particular a signature header that is present
    with an empty first value is handled as an outbound leg: nothing is
    validated and signed parameters are requested, once.  On a return leg, a
    failed validation is answered 400 and neither [next] nor the proxy is
    called; after a successful one [next] is called once, with a request
    that carries none of the three route-service headers and is otherwise
    unchanged. *)
Theorem return_leg_iff_signature_value names r rw0 req next pool :
  Value (ctx req) (StringKey "RoutePool") = Some (PoolPtr (Some pool)) ->
  route.RouteServiceUrl pool <> "" ->
  routeservice.RouteServiceEnabled (config r) = true ->
  let sigKey := routeservice.RouteServiceSignature names in
  let metaKey := routeservice.RouteServiceMetadata names in
  let fwdKey := routeservice.RouteServiceForwardedURL names in
  let validation :=
    routeservice.ValidateSignature (config r) (Header req) (forwardedURLRaw r req) in
  let res := serve names r rw0 req next in
  (Header.Get (Header req) sigKey <> "" <-> return_leg (trace (snd res))) /\
  (Header.Get (Header req) sigKey <> "" -> ~ outbound_leg (trace (snd res))) /\
  (Header.Get (Header req) sigKey <> "" ->
   forall e, snd validation = Some e ->
     fst res = Returns tt /\
     rw_calls (rw (snd res))
     = rw_calls rw0 ++ [CallWriteHeader 400;
                        CallWrite "Failed to validate Route Service Signature"] /\
     List.filter is_EvNext (trace (snd res)) = [] /\
     List.filter is_EvProxy (trace (snd res)) = []) /\
  (Header.Get (Header req) sigKey <> "" ->
   snd validation = None ->
   exists req',
     fst res = Returns tt /\
     List.filter is_EvNext (trace (snd res)) = [EvNext rw0 req'] /\
     List.filter is_EvProxy (trace (snd res)) = [] /\
     rw (snd res) = next rw0 req' /\
     ~ Header.present (Header req') sigKey /\
     ~ Header.present (Header req') metaKey /\
     ~ Header.present (Header req') fwdKey /\
     Host req' = Host req /\ RequestURI req' = RequestURI req /\ ctx req' = ctx req) /\
  (Header.Get (Header req) sigKey = "" <-> outbound_leg (trace (snd res))) /\
  (Header.Get (Header req) sigKey = "" ->
   ~ return_leg (trace (snd res)) /\
   List.filter is_EvRequest (trace (snd res))
   = [EvRequest (route.RouteServiceUrl pool) (forwardedURLRaw r req)]) /\
  (forall vs,
     Header req !! textproto.CanonicalMIMEHeaderKey sigKey = Some ("" :: vs) ->
     Header.present (Header req) sigKey /\
     outbound_leg (trace (snd res)) /\
     ~ return_leg (trace (snd res))).
Proof.
  intros Hp Hu He sigKey metaKey fwdKey validation res.
  destruct validation as [h' verr] eqn:Hv. subst validation.
  assert (Hret : Header.Get (Header req) sigKey <> "" ->
                 trace (snd res) <> [] /\
                 (forall ev, In ev (trace (snd res)) ->
                    ev = EvValidateSignature (Header req) (forwardedURLRaw r req)
                    \/ is_EvRequest ev = false /\ is_EvValidateSignature ev = false) /\
                 In (EvValidateSignature (Header req) (forwardedURLRaw r req))
                    (trace (snd res))).
  { intros Hs. subst res. destruct verr as [e|].
    - rewrite (serve_return_leg_invalid names r rw0 req next pool Hp h' e Hu He Hs Hv).
      simpl. split; [discriminate|]. split; [|auto].
      intros ev [<- | [<- | []]]; auto.
    - rewrite (serve_return_leg_valid names r rw0 req next pool Hp h' Hu He Hs Hv).
      simpl. split; [discriminate|]. split; [|auto].
      intros ev [<- | [<- | []]]; auto. }
  assert (Hout : Header.Get (Header req) sigKey = "" ->
                 forall ev, In ev (trace (snd res)) -> is_EvValidateSignature ev = false).
  { intros Hs. subst res.
    destruct (routeservice.Request (config r) (route.RouteServiceUrl pool)
                (forwardedURLRaw r req)) as [args [e|]] eqn:Hq.
    - rewrite (serve_outbound_failed names r rw0 req next pool Hp args e Hu He Hs Hq).
      simpl. intros ev [<- | [<- | []]]; reflexivity.
    - rewrite (serve_outbound_signed names r rw0 req next pool Hp args Hu He Hs Hq).
      simpl. destruct (nil_or_empty _); simpl;
        intros ev [<- | [<- | [<- | []]]]; reflexivity. }
  assert (Hreq : Header.Get (Header req) sigKey = "" ->
                 List.filter is_EvRequest (trace (snd res))
                 = [EvRequest (route.RouteServiceUrl pool) (forwardedURLRaw r req)] /\
                 In (EvRequest (route.RouteServiceUrl pool) (forwardedURLRaw r req))
                    (trace (snd res))).
  { intros Hs. subst res.
    destruct (routeservice.Request (config r) (route.RouteServiceUrl pool)
                (forwardedURLRaw r req)) as [args [e|]] eqn:Hq.
    - rewrite (serve_outbound_failed names r rw0 req next pool Hp args e Hu He Hs Hq).
      simpl. auto.
    - rewrite (serve_outbound_signed names r rw0 req next pool Hp args Hu He Hs Hq).
      simpl. destruct (nil_or_empty _); simpl; auto. }
  assert (Hnoret : Header.Get (Header req) sigKey = "" -> ~ return_leg (trace (snd res))).
  { intros Hs (h & f & Hin). apply (Hout Hs) in Hin. discriminate. }
  assert (Hnoout : Header.Get (Header req) sigKey <> "" ->
                   ~ outbound_leg (trace (snd res))).
  { intros Hs (u & f & Hin). destruct (Hret Hs) as (_ & Hall & _).
    destruct (Hall _ Hin) as [E | [E _]]; discriminate. }
  split; [|split; [|split; [|split; [|split; [|split]]]]].
  - split.
    + intros Hs. destruct (Hret Hs) as (_ & _ & Hin). unfold return_leg. eauto.
    + intros Hr Hs. now apply (Hnoret Hs).
  - exact Hnoout.
  - intros Hs e Hverr. simpl in Hverr. subst verr. subst res.
    rewrite (serve_return_leg_invalid names r rw0 req next pool Hp h' e Hu He Hs Hv).
    simpl. repeat split. now rewrite <- app_assoc.
  - intros Hs Hverr. simpl in Hverr. subst verr. subst res.
    rewrite (serve_return_leg_valid names r rw0 req next pool Hp h' Hu He Hs Hv).
    eexists. simpl. repeat split.
    + apply absent_Del_other, absent_Del_other, absent_Del.
    + apply absent_Del_other, absent_Del.
    + apply absent_Del.
  - split.
    + intros Hs. destruct (Hreq Hs) as [_ Hin]. unfold outbound_leg. eauto.
    + intros Ho. destruct (String.eqb (Header.Get (Header req) sigKey) "") eqn:E.
      * now apply String.eqb_eq in E.
      * apply String.eqb_neq in E. now contradiction (Hnoout E).
  - intros Hs. split; [now apply Hnoret | now apply Hreq].
  - intros vs Hvs.
    assert (Hs : Header.Get (Header req) sigKey = "")
      by (unfold Header.Get; now rewrite Hvs).
    split; [unfold Header.present; rewrite Hvs; eauto|].
    split; [|now apply Hnoret].
    destruct (Hreq Hs) as [_ Hin]. unfold outbound_leg. eauto.
Qed.

Lemma return_leg_iff_signature_value_witness :
  (let req := scenario.request {["X-Cf-Proxy-Signature" := ["forged"]]} in
   let res := serve scenario.names (scenario.handler true false)
                scenario.flushing_writer req scenario.next in
   return_leg (trace (snd res)) /\
   rw_calls (rw (snd res))
   = [CallWriteHeader 400; CallWrite "Failed to validate Route Service Signature"]) /\
  (let req := scenario.request
                (<["X-Cf-Proxy-Signature" := ["good"]]>
                   (<["X-Cf-Proxy-Metadata" := ["m"]]>
                      {["X-Cf-Forwarded-Url" := ["u"]]})) in
   let res := serve scenario.names (scenario.handler true false)
                scenario.flushing_writer req scenario.next in
   exists req',
     List.filter is_EvNext (trace (snd res)) = [EvNext scenario.flushing_writer req'] /\
     ~ Header.present (Header req') "X-CF-Proxy-Signature") /\
  (let req := scenario.request {["X-Cf-Proxy-Signature" := [""; "forged"]]} in
   let res := serve scenario.names (scenario.handler true false)
                scenario.flushing_writer req scenario.next in
   Header.present (Header req) "X-CF-Proxy-Signature" /\
   outbound_leg (trace (snd res)) /\
   ~ return_leg (trace (snd res))).
Proof.
  split; [|split].
  - intros req res.
    destruct (return_leg_iff_signature_value scenario.names (scenario.handler true false)
                scenario.flushing_writer req scenario.next scenario.app_pool
                eq_refl ltac:(discriminate) eq_refl) as (H1 & _ & H3 & _).
    split.
    + apply H1. vm_compute. discriminate.
    + apply (H3 ltac:(vm_compute; discriminate) "invalid signature" eq_refl).
  - intros req res.
    destruct (return_leg_iff_signature_value scenario.names (scenario.handler true false)
                scenario.flushing_writer req scenario.next scenario.app_pool
                eq_refl ltac:(discriminate) eq_refl) as (_ & _ & _ & H4 & _).
    destruct (H4 ltac:(vm_compute; discriminate) eq_refl) as (req' & _ & Hn & _ & _ & Hs & _).
    exists req'. split; [exact Hn | exact Hs].
  - intros req res.
    destruct (return_leg_iff_signature_value scenario.names (scenario.handler true false)
                scenario.flushing_writer req scenario.next scenario.app_pool
                eq_refl ltac:(discriminate) eq_refl) as (_ & _ & _ & _ & _ & _ & H7).
    exact (H7 ["forged"] eq_refl).
Defined.

(** C2 as stated fails while route services are disabled: a request with a
    route-service URL and no signature header is answered 502 and the signing
    collaborator is not called. *)
Lemma no_signing_while_disabled :
  let req := scenario.request ∅ in
  let res := serve scenario.names (scenario.handler false false)
               scenario.flushing_writer req scenario.next in
  Value (ctx req) (StringKey "RoutePool") = Some (PoolPtr (Some scenario.app_pool)) /\
  route.RouteServiceUrl scenario.app_pool <> "" /\
  ~ Header.present (Header req) "X-CF-Proxy-Signature" /\
  List.filter is_EvRequest (trace (snd res)) = [] /\
  rw_calls (rw (snd res))
  = [CallWriteHeader 502; CallWrite "Support for route services is disabled."].
Proof.
  split; [reflexivity|]. split; [discriminate|]. split; [|split; reflexivity].
  intros [x Hx]. discriminate.
Qed.

(** C2, amended: for a request whose pool has a route-service URL and that
    has no signature header, with route services enabled, the handler calls
    the signing collaborator [Request] exactly once, with the pool's
    route-service URL and the forwarded URL
    [{scheme}://{host-without-port}{request URI}], the scheme being [https]
    when the configuration recommends HTTPS and [http] otherwise.  For the
    request URI [/foo], the host [app.example.com] and HTTPS recommended
    that is [https://app.example.com/foo]. *)
Theorem outbound_leg_signs_forwarded_URL names r rw0 req next pool :
  Value (ctx req) (StringKey "RoutePool") = Some (PoolPtr (Some pool)) ->
  route.RouteServiceUrl pool <> "" ->
  routeservice.RouteServiceEnabled (config r) = true ->
  ~ Header.present (Header req) (routeservice.RouteServiceSignature names) ->
  let scheme :=
    if routeservice.RouteServiceRecommendHttps (config r) then "https" else "http" in
  let res := serve names r rw0 req next in
  List.filter is_EvRequest (trace (snd res))
  = [EvRequest (route.RouteServiceUrl pool)
       (scheme ++ "://" ++ hostWithoutPort req ++ RequestURI req)%string] /\
  (Host req = "app.example.com" -> RequestURI req = "/foo" ->
   routeservice.RouteServiceRecommendHttps (config r) = true ->
   List.filter is_EvRequest (trace (snd res))
   = [EvRequest (route.RouteServiceUrl pool) "https://app.example.com/foo"]).
Proof.
  intros Hp Hu He Hn scheme res.
  apply Get_absent in Hn.
  assert (H : List.filter is_EvRequest (trace (snd res))
              = [EvRequest (route.RouteServiceUrl pool) (forwardedURLRaw r req)]).
  { subst res.
    destruct (routeservice.Request (config r) (route.RouteServiceUrl pool)
                (forwardedURLRaw r req)) as [args [e|]] eqn:Hq.
    - now rewrite (serve_outbound_failed names r rw0 req next pool Hp args e Hu He Hn Hq).
    - rewrite (serve_outbound_signed names r rw0 req next pool Hp args Hu He Hn Hq).
      simpl. now destruct (nil_or_empty _). }
  split; [exact H|].
  intros Hh Hr Hs. rewrite H. unfold forwardedURLRaw, hostWithoutPort.
  now rewrite Hh, Hr, Hs.
Qed.

Lemma outbound_leg_signs_forwarded_URL_witness :
  let res := serve scenario.names (scenario.handler true false)
               scenario.flushing_writer (scenario.request ∅) scenario.next in
  List.filter is_EvRequest (trace (snd res))
  = [EvRequest "https://rs.example.com/rs" "https://app.example.com/foo"].
Proof.
  intros res.
  assert (Hn : ~ Header.present (Header (scenario.request ∅))
                 (routeservice.RouteServiceSignature scenario.names))
    by (intros [x Hx]; discriminate).
  exact (proj2
    (outbound_leg_signs_forwarded_URL scenario.names (scenario.handler true false)
       scenario.flushing_writer (scenario.request ∅) scenario.next scenario.app_pool
       eq_refl ltac:(discriminate) eq_refl Hn) eq_refl eq_refl eq_refl).
Defined.



End RouteServiceClaims.

(** ** More on the proxy response writer *)

Section ResponseWriterMore.

Import http utils.

Ltac unfold_methods :=
  unfold run_op, Hijack, Write, WriteHeader, Flush, CloseNotify, Done, Header,
    set_self, set_w, print, http.Write, http.WriteHeader, record_call,
    with_header, forwarded, Status, Size in *;
  simpl in *.

Ltac split_cases :=
  repeat match goal with
         | |- context [match ?x with _ => _ end] => destruct x eqn:?; simpl in *
         end.

(** No use of the writer changes what the wrapped writer is able to do. *)
Lemma run_op_keeps_wrapped o st :
  rw_write_result (w (self (run_op o st))) = rw_write_result (w (self st)) /\
  rw_Hijacker (w (self (run_op o st))) = rw_Hijacker (w (self st)) /\
  rw_CloseNotifier (w (self (run_op o st))) = rw_CloseNotifier (w (self st)) /\
  flusher (self (run_op o st)) = flusher (self st).
Proof. destruct o; unfold_methods; split_cases; auto. Qed.

Lemma run_ops_keeps_wrapped os : forall st,
  rw_write_result (w (self (run_ops os st))) = rw_write_result (w (self st)) /\
  rw_Hijacker (w (self (run_ops os st))) = rw_Hijacker (w (self st)) /\
  rw_CloseNotifier (w (self (run_ops os st))) = rw_CloseNotifier (w (self st)) /\
  flusher (self (run_ops os st)) = flusher (self st).
Proof.
  induction os as [| o os IH]; intros st; simpl; [auto|].
  destruct (IH (run_op o st)) as (-> & -> & -> & ->). apply run_op_keeps_wrapped.
Qed.

Lemma run_op_status_kept o st :
  Status st <> 0 -> Status (run_op o st) = Status st.
Proof.
  intros Hs. apply Z.eqb_neq in Hs.
  destruct o; unfold_methods; split_cases; try reflexivity; congruence.
Qed.

Lemma run_ops_status_kept os : forall st,
  Status st <> 0 -> Status (run_ops os st) = Status st.
Proof.
  induction os as [| o os IH]; intros st Hs; simpl; [reflexivity|].
  rewrite IH; rewrite (run_op_status_kept o st Hs); [reflexivity | assumption].
Qed.

(** A use other than [Write], [WriteHeader] and [Done] leaves the flag and
    the recorded status. *)
Lemma run_op_other o st :
  match o with OpWrite _ | OpWriteHeader _ | OpDone => False | _ => True end ->
  done (self (run_op o st)) = done (self st) /\ Status (run_op o st) = Status st.
Proof. destruct o; intros []; unfold_methods; split_cases; auto. Qed.

(** C8, amended: for a writer that is not done and has no status recorded,
    whatever is then done with it, the recorded status is the argument of
    the first [WriteHeader] whose argument is not 0, where a [Write] that
    comes before any such writes the header 200 itself and records 200.
    [WriteHeader(0)] is forwarded to the wrapped writer but records nothing,
    so that the next [WriteHeader] still records its argument.  As long as
    the writer is not done, every [WriteHeader] is forwarded to the wrapped
    writer; it leaves the recorded status as it is once that is not 0. *)
Theorem Status_is_first_nonzero_WriteHeader (st : state) (os : list op) :
  done (self st) = false ->
  Status st = 0 ->
  Status (run_ops os st) = first_recorded os /\
  (forall b,
     Status (snd (Write b st)) = StatusOK /\
     forwarded (snd (Write b st)) =
       forwarded st ++ [CallWriteHeader StatusOK; CallWrite b]) /\
  (forall s,
     Status (WriteHeader s st) = s /\
     forwarded (WriteHeader s st) = forwarded st ++ [CallWriteHeader s]) /\
  (forall s,
     Status (WriteHeader 0 st) = 0 /\
     Status (WriteHeader s (WriteHeader 0 st)) = s /\
     forwarded (WriteHeader s (WriteHeader 0 st))
     = forwarded st ++ [CallWriteHeader 0; CallWriteHeader s]) /\
  (let st' := run_ops os st in
   done (self st') = false ->
   forall s,
     forwarded (WriteHeader s st') = forwarded st' ++ [CallWriteHeader s] /\
     (Status st' <> 0 -> Status (WriteHeader s st') = Status st') /\
     (Status st' = 0 -> Status (WriteHeader s st') = s)).
Proof.
  intros Hd H0. split; [|split; [|split; [|split]]].
  - revert st Hd H0. induction os as [| o os IH]; intros st Hd H0; [exact H0|].
    change (run_ops (o :: os) st) with (run_ops os (run_op o st)).
    destruct o;
      try (match goal with
           | |- context [run_op ?o st] => destruct (run_op_other o st I) as [Hd1 Hs1]
           end;
           simpl first_recorded; apply IH; congruence).
    + destruct (Write_live b st Hd) as (_ & Hs & _). rewrite H0 in Hs. simpl in Hs.
      simpl. rewrite run_ops_status_kept; [exact Hs | rewrite Hs; discriminate].
    + destruct (WriteHeader_live s st Hd) as (_ & Hs & _ & Hd1 & _).
      rewrite H0 in Hs. simpl in Hs. simpl first_recorded.
      destruct (Z.eqb s 0) eqn:E.
      * apply Z.eqb_eq in E. apply IH; [exact Hd1 | simpl; congruence].
      * apply Z.eqb_neq in E. simpl.
        rewrite run_ops_status_kept; [exact Hs | rewrite Hs; exact E].
    + simpl first_recorded.
      assert (Hdd : done (self (run_op OpDone st)) = true) by reflexivity.
      destruct (run_ops_done os _ Hdd) as (_ & Hs & _). rewrite Hs. exact H0.
  - intros b. destruct (Write_live b st Hd) as (Hf & Hst & _).
    rewrite H0 in Hf, Hst. simpl in Hf, Hst. auto.
  - intros s. destruct (WriteHeader_live s st Hd) as (Hf & Hst & _).
    rewrite H0 in Hst. simpl in Hst. auto.
  - intros s. destruct (WriteHeader_live 0 st Hd) as (Hf0 & Hs0 & _ & Hd0 & _).
    rewrite H0 in Hs0. simpl in Hs0.
    destruct (WriteHeader_live s _ Hd0) as (Hf1 & Hs1 & _).
    rewrite Hs0 in Hs1. simpl in Hs1. rewrite Hf0, <- app_assoc in Hf1. auto.
  - intros st' Hd' s. destruct (WriteHeader_live s st' Hd') as (Hf & Hst & _).
    split; [exact Hf|]. split; intros Hs.
    + apply Z.eqb_neq in Hs. now rewrite Hs in Hst.
    + rewrite Hs in Hst. exact Hst.
Qed.

Lemma Status_is_first_nonzero_WriteHeader_witness :
  let st := scenario.state_around scenario.flushing_writer gochan.empty in
  let os := [OpFlush; OpWriteHeader 0; OpWriteHeader 201; OpWrite "a"; OpWriteHeader 500] in
  Status (run_ops os st) = 201 /\
  Status (snd (Write "a" st)) = 200 /\
  Status (WriteHeader 404 (run_ops os st)) = 201.
Proof.
  intros st os.
  destruct (Status_is_first_nonzero_WriteHeader st os eq_refl eq_refl)
    as (H1 & H2 & _ & _ & H5).
  split; [exact H1|]. split; [exact (proj1 (H2 "a"))|].
  destruct (H5 eq_refl 404) as (_ & H & _).
  rewrite H; [exact H1 | rewrite H1; discriminate].
Defined.

(** X1: a recorded status is final.  Once the recorded status is not 0, no
    sequence of uses of the writer, [Done] and [WriteHeader(0)] included,
    changes it. *)
Theorem recorded_status_is_final (st : state) (os : list op) :
  Status st <> 0 -> Status (run_ops os st) = Status st.
Proof. apply run_ops_status_kept. Qed.

Lemma recorded_status_is_final_witness :
  let st := scenario.state_around scenario.full_writer scenario.server_heap in
  Status (run_ops [OpWriteHeader 0; OpWrite "a"; OpHijack; OpDone; OpWriteHeader 500]
            (WriteHeader 404 st)) = 404.
Proof.
  intros st.
  exact (recorded_status_is_final (WriteHeader 404 st)
           [OpWriteHeader 0; OpWrite "a"; OpHijack; OpDone; OpWriteHeader 500]
           ltac:(vm_compute; discriminate)).
Defined.

(** Arithmetic of the 64-bit wrap. *)
Lemma int_wrap_congr a b c : int_wrap a = int_wrap b -> int_wrap (a + c) = int_wrap (b + c).
Proof.
  unfold int_wrap. intros H.
  assert (E : (a + 2 ^ 63) mod 2 ^ 64 = (b + 2 ^ 63) mod 2 ^ 64) by lia.
  replace (a + c + 2 ^ 63) with ((a + 2 ^ 63) + c) by lia.
  replace (b + c + 2 ^ 63) with ((b + 2 ^ 63) + c) by lia.
  rewrite <- (Zplus_mod_idemp_l (a + 2 ^ 63)), <- (Zplus_mod_idemp_l (b + 2 ^ 63)).
  now rewrite E.
Qed.

Lemma int_wrap_idem a : int_wrap (int_wrap a) = int_wrap a.
Proof.
  unfold int_wrap.
  replace ((a + 2 ^ 63) mod 2 ^ 64 - 2 ^ 63 + 2 ^ 63) with ((a + 2 ^ 63) mod 2 ^ 64) by lia.
  now rewrite Zmod_mod.
Qed.

Lemma int_wrap_small a : - 2 ^ 63 <= a < 2 ^ 63 -> int_wrap a = a.
Proof. intros H. unfold int_wrap. rewrite Z.mod_small; lia. Qed.

Lemma reported_bytes_app answer l1 : forall seen l2,
  reported_bytes answer seen (l1 ++ l2)
  = reported_bytes answer seen l1 + reported_bytes answer (seen ++ l1) l2.
Proof.
  induction l1 as [| c l1 IH]; intros seen l2; simpl.
  - now rewrite app_nil_r.
  - destruct c; rewrite IH, <- app_assoc; simpl; lia.
Qed.

(** One use of the writer: the log of the wrapped writer grows at its end,
    and the size grows by what the wrapped writer reported for the new
    [Write] calls. *)
Lemma run_op_size o st :
  exists new,
    forwarded (run_op o st) = forwarded st ++ new /\
    int_wrap (Size (run_op o st))
    = int_wrap (Size st
                + reported_bytes (rw_write_result (w (self st))) (forwarded st) new).
Proof.
  destruct o; unfold_methods; split_cases;
    try (exists []; rewrite app_nil_r, Z.add_0_r; now split);
    try (eexists [_]; split; [reflexivity|]; simpl; now rewrite Z.add_0_r).
  - eexists [_; _]. rewrite <- app_assoc. split; [reflexivity|]. simpl.
    rewrite int_wrap_idem. f_equal. lia.
  - eexists [_; _]. rewrite <- app_assoc. split; [reflexivity|]. simpl.
    rewrite int_wrap_idem. f_equal. lia.
  - eexists [_]. split; [reflexivity|]. simpl.
    rewrite int_wrap_idem. f_equal. lia.
Qed.

(** X2: the size is the sum of what the wrapped writer reported.  Whatever
    is done with the writer, the calls it sends on are appended to the log of
    the wrapped writer, and [Size()] grows, modulo 2^64, by the byte counts
    that the wrapped writer returned for the new [Write] calls (not by the
    lengths of the buffers, and also when a [Write] returned an error).  A
    [Write] on a writer that is not done returns the count and the error of
    the wrapped writer as they are. *)
Theorem size_is_sum_of_reported_bytes (st : state) (os : list op) :
  (exists new,
     forwarded (run_ops os st) = forwarded st ++ new /\
     int_wrap (Size (run_ops os st))
     = int_wrap (Size st
                 + reported_bytes (rw_write_result (w (self st))) (forwarded st) new)) /\
  (done (self st) = false ->
   forall b,
     fst (Write b st)
     = rw_write_result (w (self st))
         (forwarded st ++ (if Z.eqb (Status st) 0 then [CallWriteHeader StatusOK] else []))
         b).
Proof.
  split.
  - revert st. induction os as [| o os IH]; intros st; simpl.
    + exists []. rewrite app_nil_r, Z.add_0_r. now split.
    + destruct (run_op_size o st) as (n1 & Hf1 & Hs1).
      destruct (IH (run_op o st)) as (n2 & Hf2 & Hs2).
      destruct (run_op_keeps_wrapped o st) as (Hans & _).
      exists (n1 ++ n2). rewrite Hf2, Hf1, <- app_assoc. split; [reflexivity|].
      rewrite Hs2, Hans, Hf1, reported_bytes_app, Z.add_assoc.
      now apply int_wrap_congr.
  - intros Hd b. unfold_methods. rewrite Hd. split_cases; now rewrite ?app_nil_r.
Qed.

Lemma size_is_sum_of_reported_bytes_witness :
  let st := scenario.state_around roundtrip.short_writer gochan.empty in
  let os := [OpWrite "ab"; OpFlush; OpWrite "abcdef"; OpDone; OpWrite "xyz"] in
  int_wrap (Size (run_ops os st)) = 5 /\
  fst (Write "abcdef" st) = (3, Some "short write").
Proof.
  intros st os.
  destruct (size_is_sum_of_reported_bytes st os) as ((new & Hf & Hs) & Hw).
  split.
  - rewrite Hs.
    assert (E : new = [CallWriteHeader 200; CallWrite "ab"; CallFlush; CallWrite "abcdef"])
      by (apply (app_inv_head (forwarded st)); rewrite <- Hf; reflexivity).
    rewrite E. reflexivity.
  - rewrite (Hw eq_refl "abcdef"). reflexivity.
Defined.

Lemma header_precedes_body_snoc l : forall seen c,
  header_precedes_body seen (l ++ [c])
  = header_precedes_body seen l
    && match c with
       | CallWrite _ => seen || has_WriteHeader l
       | _ => true
       end.
Proof.
  induction l as [| a l IH]; intros seen c; simpl.
  - destruct c; simpl; rewrite ?andb_true_r, ?orb_false_r; reflexivity.
  - destruct a; rewrite IH; simpl;
      destruct c; rewrite ?orb_true_r, ?orb_true_l, ?andb_assoc; reflexivity.
Qed.

Lemma has_WriteHeader_snoc l c :
  has_WriteHeader (l ++ [c])
  = has_WriteHeader l || match c with CallWriteHeader _ => true | _ => false end.
Proof. unfold has_WriteHeader. rewrite existsb_app. simpl. now rewrite orb_false_r. Qed.

Lemma run_op_header_sent_first o st :
  header_sent_first st -> header_sent_first (run_op o st).
Proof.
  intros [Hord Hst]. unfold header_sent_first.
  destruct o; simpl.
  - unfold_methods. auto.
  - unfold Hijack. destruct (rw_Hijacker _); [|auto].
    unfold forwarded, Status in *. simpl.
    rewrite header_precedes_body_snoc, has_WriteHeader_snoc, Hord, orb_false_r. auto.
  - destruct (done (self st)) eqn:Hd.
    + rewrite Write_done by assumption. auto.
    + destruct (Write_live b st Hd) as (Hf & Hs & _). rewrite Hs.
      destruct (Z.eqb (Status st) 0) eqn:E.
      * assert (Hf' : forwarded (snd (Write b st))
                      = (forwarded st ++ [CallWriteHeader StatusOK]) ++ [CallWrite b])
          by (rewrite Hf; now rewrite <- app_assoc).
        rewrite Hf', !header_precedes_body_snoc, !has_WriteHeader_snoc, Hord.
        simpl. rewrite !orb_true_r. auto.
      * apply Z.eqb_neq in E. simpl in Hf. rewrite Hf.
        rewrite header_precedes_body_snoc, has_WriteHeader_snoc, Hord, (Hst E). auto.
  - destruct (done (self st)) eqn:Hd.
    + destruct (WriteHeader_done s st Hd) as [Hself _].
      unfold forwarded, Status in *. rewrite Hself. auto.
    + destruct (WriteHeader_live s st Hd) as (Hf & Hs & _). rewrite Hf.
      rewrite header_precedes_body_snoc, has_WriteHeader_snoc, Hord, orb_true_r. auto.
  - unfold_methods. auto.
  - unfold Flush. destruct (flusher _); [|auto].
    unfold forwarded, Status in *. simpl.
    rewrite header_precedes_body_snoc, has_WriteHeader_snoc, Hord, orb_false_r. auto.
  - auto.
  - auto.
  - unfold CloseNotify. destruct (rw_CloseNotifier _); [|auto].
    unfold forwarded, Status in *. simpl.
    rewrite header_precedes_body_snoc, has_WriteHeader_snoc, Hord, orb_false_r. auto.
Qed.

(** X3: no body before a header.  For a writer just constructed around a
    wrapped writer that has received nothing yet, whatever is done with it,
    every [Write] that reaches the wrapped writer comes after a
    [WriteHeader] that reached it. *)
Theorem header_reaches_wrapped_writer_first w0 p (os : list op) :
  NewProxyResponseWriter w0 = Returns p ->
  rw_calls w0 = [] ->
  forall out hp,
    header_precedes_body false
      (forwarded (run_ops os {| self := p; console := out; chans := hp |})) = true.
Proof.
  intros Hnew Hempty out hp.
  unfold NewProxyResponseWriter in Hnew. destruct (rw_Flusher w0); [|discriminate].
  inversion Hnew; subst p; clear Hnew.
  set (st := {| self := _; console := out; chans := hp |}).
  assert (Hinv : header_sent_first st).
  { unfold header_sent_first, forwarded, Status. simpl. rewrite Hempty. split; [reflexivity|].
    intros H. now contradiction H. }
  clearbody st. revert st Hinv.
  induction os as [| o os IH]; intros st Hinv; simpl.
  - apply Hinv.
  - apply IH. now apply run_op_header_sent_first.
Qed.

Lemma header_reaches_wrapped_writer_first_witness :
  header_precedes_body false
    (forwarded (run_ops [OpWriteHeader 0; OpWrite "a"; OpFlush; OpWrite "b"]
                  (scenario.state_around scenario.flushing_writer gochan.empty))) = true.
Proof.
  exact (header_reaches_wrapped_writer_first scenario.flushing_writer _
           [OpWriteHeader 0; OpWrite "a"; OpFlush; OpWrite "b"]
           eq_refl eq_refl [] gochan.empty).
Defined.

Lemma run_op_when_done o st :
  done (self st) = true ->
  done (self (run_op o st)) = true /\
  forwarded (run_op o st)
  = forwarded st ++ passes_when_done (w (self st)) (flusher (self st)) o.
Proof.
  intros Hd. destruct o; unfold_methods; rewrite ?Hd; split_cases;
    rewrite ?app_nil_r; auto.
Qed.

(** X4: [Done] stops [Write] and [WriteHeader] only.  After [Done()], the
    calls that reach the wrapped writer are exactly the [Flush], [Hijack]
    and [CloseNotify] calls made on the writer, in order, each forwarded when
    the wrapped writer has the capability: these three methods do not test
    the completion flag. *)
Theorem Done_stops_only_writes (st : state) (os : list op) :
  forwarded (run_ops os (Done st))
  = forwarded st
      ++ concat (map (passes_when_done (w (self st)) (flusher (self st))) os).
Proof.
  change (forwarded st) with (forwarded (Done st)).
  change (w (self st)) with (w (self (Done st))).
  change (flusher (self st)) with (flusher (self (Done st))).
  assert (Hd : done (self (Done st)) = true) by reflexivity.
  generalize dependent (Done st). clear st.
  intros st Hd. revert st Hd.
  induction os as [| o os IH]; intros st Hd; simpl.
  - now rewrite app_nil_r.
  - destruct (run_op_when_done o st Hd) as [Hd1 Hf1].
    destruct (run_op_keeps_wrapped o st) as (_ & Hh & Hc & Hfl).
    rewrite (IH _ Hd1), Hf1, <- app_assoc. f_equal. f_equal. f_equal.
    apply map_ext. intros o'. unfold passes_when_done. now rewrite Hh, Hc, Hfl.
Qed.

Lemma run_op_made o st :
  rw_CloseNotifier (w (self st)) = None ->
  gochan.made (chans (run_op o st))
  = (gochan.made (chans st) + (if is_OpCloseNotify o then 1 else 0))%nat /\
  length (gochan.held (chans (run_op o st)))
  = (length (gochan.held (chans st)) + (if is_OpCloseNotify o then 1 else 0))%nat.
Proof.
  intros Hn. destruct o; unfold_methods; rewrite ?Hn; split_cases; simpl; lia.
Qed.

(** X5: every [CloseNotify] makes a channel.  On a writer whose wrapped
    writer has no close notification, each call of [CloseNotify] makes a
    channel of its own, whose number is the count of channels made before, and
    leaves one more end held; no use of the writer releases any.  With close
    notification, no use of the writer touches the channels. *)
Theorem CloseNotify_makes_a_channel_per_call (st : state) (os : list op) :
  (rw_CloseNotifier (w (self st)) = None ->
   let n := length (List.filter is_OpCloseNotify os) in
   gochan.made (chans (run_ops os st)) = (gochan.made (chans st) + n)%nat /\
   length (gochan.held (chans (run_ops os st)))
   = (length (gochan.held (chans st)) + n)%nat /\
   fst (CloseNotify (run_ops os st)) = ((gochan.made (chans st) + n)%nat, RecvOnly)) /\
  (is_Some (rw_CloseNotifier (w (self st))) -> chans (run_ops os st) = chans st).
Proof.
  split.
  - revert st. induction os as [| o os IH]; intros st Hn; simpl.
    + rewrite !Nat.add_0_r. repeat split. unfold CloseNotify. now rewrite Hn.
    + destruct (run_op_made o st Hn) as [Hm Hh].
      destruct (run_op_keeps_wrapped o st) as (_ & _ & Hc & _).
      rewrite <- Hc in Hn. destruct (IH _ Hn) as (H1 & H2 & H3).
      rewrite H1, H2, H3, Hm, Hh.
      destruct (is_OpCloseNotify o); simpl; repeat split; try lia; f_equal; lia.
  - revert st. induction os as [| o os IH]; intros st Hs; simpl; [reflexivity|].
    destruct (run_op_keeps_wrapped o st) as (_ & _ & Hc & _).
    rewrite IH by (now rewrite Hc). destruct Hs as [c Hs].
    destruct o; unfold_methods; rewrite ?Hs; split_cases; reflexivity.
Qed.

Lemma CloseNotify_makes_a_channel_per_call_witness :
  (let st := scenario.state_around scenario.flushing_writer gochan.empty in
   fst (CloseNotify (run_ops [OpCloseNotify; OpWrite "a"; OpCloseNotify] st))
   = (2%nat, RecvOnly)) /\
  (let st := scenario.state_around scenario.full_writer scenario.server_heap in
   chans (run_ops [OpCloseNotify; OpWrite "a"; OpCloseNotify] st) = scenario.server_heap).
Proof.
  split; intros st.
  - exact (proj2 (proj2 (proj1 (CloseNotify_makes_a_channel_per_call st
             [OpCloseNotify; OpWrite "a"; OpCloseNotify]) eq_refl))).
  - exact (proj2 (CloseNotify_makes_a_channel_per_call st
             [OpCloseNotify; OpWrite "a"; OpCloseNotify]) ltac:(eexists; reflexivity)).
Defined.

Lemma only_absent_Content_Type_set_refl h : only_absent_Content_Type_set h h.
Proof. split; auto. Qed.

Lemma only_absent_Content_Type_set_trans h1 h2 h3 :
  only_absent_Content_Type_set h1 h2 -> only_absent_Content_Type_set h2 h3 ->
  only_absent_Content_Type_set h1 h3.
Proof.
  intros [Ha Hb] [Hc Hd]. split.
  - intros k Hk. now rewrite Hc, Ha.
  - destruct Hb as [Hb | [Hb1 Hb2]], Hd as [Hd | [Hd1 Hd2]].
    + left. congruence.
    + right. split; congruence.
    + right. split; congruence.
    + congruence.
Qed.

Lemma run_op_header o st :
  is_OpHeaderAssign o = false ->
  only_absent_Content_Type_set (Header st) (Header (run_op o st)).
Proof.
  intros Ho. destruct o; try discriminate; unfold_methods; split_cases;
    try apply only_absent_Content_Type_set_refl;
    (split; [intros k Hk; apply lookup_insert_ne; intros E; apply Hk; now symmetry
            | right; split; [assumption | apply lookup_insert_eq]]).
Qed.

(** X6: the writer touches one header, and only when it is absent.  Unless
    the caller assigns into the header map, no sequence of uses of the writer
    changes an entry of the wrapped writer's header map other than
    [Content-Type], and that one only from absent to [nil]: a content type
    the caller has set is never overwritten.  A [WriteHeader] on a writer
    that is not done leaves [Content-Type] present: as it was, or [nil]. *)
Theorem writer_sets_only_absent_Content_Type (st : state) (os : list op) :
  (forallb (fun o => negb (is_OpHeaderAssign o)) os = true ->
   only_absent_Content_Type_set (Header st) (Header (run_ops os st))) /\
  (done (self st) = false ->
   forall s,
     Header (WriteHeader s st) !! "Content-Type"
     = Some (default [] (Header st !! "Content-Type"))).
Proof.
  split.
  - revert st. induction os as [| o os IH]; intros st Hall; simpl in *.
    + apply only_absent_Content_Type_set_refl.
    + apply andb_prop in Hall. destruct Hall as [Ho Hos].
      apply negb_true_iff in Ho.
      apply only_absent_Content_Type_set_trans with (h2 := Header (run_op o st));
        [apply run_op_header; exact Ho | apply IH; exact Hos].
  - intros Hd s. unfold_methods. rewrite Hd. split_cases.
    + assumption.
    + apply lookup_insert_eq.
Qed.

Lemma writer_sets_only_absent_Content_Type_witness :
  (let st := scenario.state_around roundtrip.short_writer gochan.empty in
   Header (run_ops [OpWrite "a"; OpWriteHeader 500; OpFlush] st) !! "Content-Type"
   = Some ["text/html"]) /\
  (let st := scenario.state_around scenario.flushing_writer gochan.empty in
   Header (WriteHeader 204 st) !! "Content-Type" = Some []).
Proof.
  split; intros st.
  - destruct (proj1 (writer_sets_only_absent_Content_Type st
                       [OpWrite "a"; OpWriteHeader 500; OpFlush]) eq_refl)
      as [_ [H | [H _]]]; [rewrite H; reflexivity | discriminate H].
  - exact (proj2 (writer_sets_only_absent_Content_Type st []) eq_refl 204).
Defined.

Lemma run_op_failed_Hijack st :
  rw_Hijacker (w (self st)) = None -> run_op OpHijack st = st.
Proof. intros Hn. unfold run_op, Hijack. now rewrite Hn. Qed.

(** X7: a refused hijack is no event.  When the wrapped writer cannot be
    hijacked, [Hijack()] returns no connection, no buffer and the error
    [response writer cannot hijack], whether the writer is done or not, and
    changes nothing: uses of the writer give the same result with the
    [Hijack] calls among them left out. *)
Theorem refused_Hijack_changes_nothing (st : state) (os : list op) :
  rw_Hijacker (w (self st)) = None ->
  Hijack st = ((None, None, Some "response writer cannot hijack"), st) /\
  run_ops os st = run_ops (List.filter (fun o => negb (is_OpHijack o)) os) st.
Proof.
  intros Hn. split; [unfold Hijack; now rewrite Hn|].
  revert st Hn. induction os as [| o os IH]; intros st Hn; [reflexivity|].
  destruct (run_op_keeps_wrapped o st) as (_ & Hh & _).
  cbn [List.filter]. destruct (is_OpHijack o) eqn:E; cbn [negb].
  - destruct o; try discriminate.
    change (run_ops (OpHijack :: os) st) with (run_ops os (run_op OpHijack st)).
    rewrite (run_op_failed_Hijack st Hn). now apply IH.
  - change (run_ops os (run_op o st)
            = run_ops (List.filter (fun o => negb (is_OpHijack o)) os) (run_op o st)).
    apply IH. now rewrite Hh.
Qed.

Lemma refused_Hijack_changes_nothing_witness :
  let st := scenario.state_around scenario.flushing_writer gochan.empty in
  fst (Hijack (Done st)) = (None, None, Some "response writer cannot hijack") /\
  forwarded (run_ops [OpHijack; OpWrite "a"; OpHijack] st)
  = [CallWriteHeader 200; CallWrite "a"].
Proof.
  intros st. split.
  - now rewrite (proj1 (refused_Hijack_changes_nothing (Done st) [] eq_refl)).
  - now rewrite (proj2 (refused_Hijack_changes_nothing st
                          [OpHijack; OpWrite "a"; OpHijack] eq_refl)).
Defined.

End ResponseWriterMore.

(** ** More on the route-service middleware *)

Section RouteServiceMore.

Import http handlers.

Variable names : routeservice.header_names.
Variable r : routeService.
Variable rw0 : ResponseWriter.
Variable req : Request.
Variable next : HandlerFunc.

Let sigKey := routeservice.RouteServiceSignature names.
Let metaKey := routeservice.RouteServiceMetadata names.
Let fwdKey := routeservice.RouteServiceForwardedURL names.
Let fwd := forwardedURLRaw r req.

Lemma serve_no_pool :
  Value (ctx req) (StringKey "RoutePool") = None ->
  serve names r rw0 req next
  = (Returns tt,
     {| rw := http.Error rw0 "RoutePool not set on context" StatusBadGateway;
        trace := [EvLog "error" "RoutePool not set on context"
                    (Some "failed-to-access-RoutePool")] |}).
Proof. intros Hp. unfold serve, ServeHTTP. now rewrite Hp. Qed.

Lemma serve_not_a_pool v :
  Value (ctx req) (StringKey "RoutePool") = Some v ->
  (forall p, v <> PoolPtr (Some p)) ->
  exists msg,
    serve names r rw0 req next = (Panics msg, {| rw := rw0; trace := [] |}).
Proof.
  intros Hp Hv. unfold serve, ServeHTTP. rewrite Hp.
  destruct v as [[p|] | u | t]; [now contradiction (Hv p) | | |]; eauto.
Qed.

(** Every way a request can be served. *)
Lemma serve_cases :
  let res := serve names r rw0 req next in
  (Value (ctx req) (StringKey "RoutePool") = None /\
   res = (Returns tt,
          {| rw := http.Error rw0 "RoutePool not set on context" StatusBadGateway;
             trace := [EvLog "error" "RoutePool not set on context"
                         (Some "failed-to-access-RoutePool")] |})) \/
  (exists msg, res = (Panics msg, {| rw := rw0; trace := [] |})) \/
  (res = (Returns tt, {| rw := next rw0 req; trace := [EvNext rw0 req] |})) \/
  (res = (Returns tt,
          {| rw := snd (http.Write
                     (http.WriteHeader
                        (with_header rw0
                           (Header.Set_ (rw_header rw0) "X-Cf-RouterError"
                              "route_service_unsupported"))
                        StatusBadGateway)
                     "Support for route services is disabled.");
             trace := [EvLog "info" "route-service-unsupported" None] |})) \/
  (exists e,
     res = (Returns tt,
            {| rw := snd (http.Write (http.WriteHeader rw0 StatusBadRequest)
                            "Failed to validate Route Service Signature");
               trace := [EvValidateSignature (Header req) fwd;
                         EvLog "error" "signature-validation-failed" (Some e)] |})) \/
  (exists h',
     routeservice.ValidateSignature (config r) (Header req) fwd = (h', None) /\
     let req' :=
       with_Header req (Header.Del (Header.Del (Header.Del h' sigKey) metaKey) fwdKey) in
     res = (Returns tt,
            {| rw := next rw0 req';
               trace := [EvValidateSignature (Header req) fwd; EvNext rw0 req'] |})) \/
  (exists rsUrl e,
     res = (Returns tt,
            {| rw := snd (http.Write (http.WriteHeader rw0 StatusInternalServerError)
                            "Route service request failed.");
               trace := [EvRequest rsUrl fwd;
                         EvLog "error" "route-service-failed" (Some e)] |})) \/
  (exists rsUrl args,
     routeservice.Request (config r) rsUrl fwd = (args, None) /\
     let uri := (url.Host (routeservice.ParsedUrl args)
                   ++ url.Path (routeservice.ParsedUrl args))%string in
     let out := outgoing names r req args in
     res = (Returns tt,
            if nil_or_empty (routeRegistry r uri)
            then {| rw := rsReverseProxy r rw0 out;
                    trace := [EvRequest rsUrl fwd; EvLookup uri; EvProxy rw0 out] |}
            else {| rw := next rw0 out;
                    trace := [EvRequest rsUrl fwd; EvLookup uri; EvNext rw0 out] |})).
Proof.
  intros res. subst res.
  destruct (Value (ctx req) (StringKey "RoutePool")) as [v|] eqn:Hp;
    [| left; split; [reflexivity | now apply serve_no_pool]].
  right.
  destruct v as [[pool|] | u | t];
    try (left; eapply serve_not_a_pool; [exact Hp | intros p; discriminate]).
  right.
  destruct (String.eqb (route.RouteServiceUrl pool) "") eqn:Hu.
  { apply String.eqb_eq in Hu. left. now apply serve_empty_url with (pool := pool). }
  apply String.eqb_neq in Hu. right.
  destruct (routeservice.RouteServiceEnabled (config r)) eqn:He;
    [| left; now apply serve_disabled with (pool := pool)].
  right.
  destruct (String.eqb (Header.Get (Header req) sigKey) "") eqn:Hs.
  - apply String.eqb_eq in Hs. right. right.
    destruct (routeservice.Request (config r) (route.RouteServiceUrl pool) fwd)
      as [args [e|]] eqn:Hq.
    + left. exists (route.RouteServiceUrl pool), e.
      now apply serve_outbound_failed with (pool := pool) (args := args).
    + right. exists (route.RouteServiceUrl pool), args. split; [exact Hq|].
      now apply serve_outbound_signed with (pool := pool).
  - apply String.eqb_neq in Hs.
    destruct (routeservice.ValidateSignature (config r) (Header req) fwd)
      as [h' [e|]] eqn:Hv.
    + left. exists e. now apply serve_return_leg_invalid with (pool := pool) (h' := h').
    + right. left. exists h'. split; [reflexivity|].
      now apply serve_return_leg_valid with (pool := pool).
Qed.

End RouteServiceMore.

Section RouteServiceExtras.

Import http handlers.

(** X8: no route pool in the context.  The handler then logs the fault and
    answers through [http.Error]: status 502, the body [RoutePool not set on
    context] with a newline, plain-text content type and [nosniff]; whatever
    the configuration and the headers, it calls neither [next], nor the
    proxy, nor any collaborator. *)
Theorem missing_RoutePool_answers_502 names r rw0 req next :
  Value (ctx req) (StringKey "RoutePool") = None ->
  let res := serve names r rw0 req next in
  fst res = Returns tt /\
  rw_calls (rw (snd res))
  = rw_calls rw0
      ++ [CallWriteHeader 502;
          CallWrite ("RoutePool not set on context" ++ String (ascii_of_nat 10) "")%string] /\
  Header.Get (rw_header (rw (snd res))) "Content-Type" = "text/plain; charset=utf-8" /\
  Header.Get (rw_header (rw (snd res))) "X-Content-Type-Options" = "nosniff" /\
  trace (snd res)
  = [EvLog "error" "RoutePool not set on context" (Some "failed-to-access-RoutePool")].
Proof.
  intros Hp res. subst res. rewrite (serve_no_pool names r rw0 req next Hp). simpl.
  repeat split.
  - now rewrite <- app_assoc.
  - rewrite Get_Set_other by (vm_compute; discriminate). apply Get_Set.
  - apply Get_Set.
Qed.

Lemma missing_RoutePool_answers_502_witness :
  rw_calls (rw (snd (serve scenario.names (scenario.handler true true)
                       scenario.flushing_writer roundtrip.request_without_pool
                       scenario.next)))
  = [CallWriteHeader 502;
     CallWrite ("RoutePool not set on context" ++ String (ascii_of_nat 10) "")%string].
Proof.
  exact (proj1 (proj2
    (missing_RoutePool_answers_502 scenario.names (scenario.handler true true)
       scenario.flushing_writer roundtrip.request_without_pool scenario.next eq_refl))).
Defined.

(** X9: a context value of another type.  When the context binds
    [RoutePool] to a value that is no [*route.Pool], the single-value type
    assertion panics: the handler writes nothing, logs nothing and calls
    nothing. *)
Theorem non_pool_context_value_panics names r rw0 req next v :
  Value (ctx req) (StringKey "RoutePool") = Some v ->
  (forall p, v <> PoolPtr p) ->
  exists msg,
    serve names r rw0 req next = (Panics msg, {| rw := rw0; trace := [] |}).
Proof.
  intros Hp Hv. apply serve_not_a_pool with (v := v); [exact Hp|].
  intros p. apply Hv.
Qed.

Lemma non_pool_context_value_panics_witness :
  exists msg,
    serve scenario.names (scenario.handler true true) scenario.flushing_writer
      roundtrip.request_with_wrong_pool scenario.next
    = (Panics msg, {| rw := scenario.flushing_writer; trace := [] |}).
Proof.
  apply (non_pool_context_value_panics scenario.names (scenario.handler true true)
           scenario.flushing_writer roundtrip.request_with_wrong_pool scenario.next
           (URLPtr {| url.Host := "rs.example.com"; url.Path := "/rs" |}) eq_refl).
  intros p. discriminate.
Defined.




(** X12: the collaborators.  In every run the handler calls at most one of
    [ValidateSignature] and [Request], at most once, and hands either of them
    the same forwarded URL, computed from the request as received;
    [ValidateSignature] sees the headers as received.  The registry is
    consulted only after a [Request] that returned no error, once, for
    [{parsed host}{parsed path}] of its result. *)
Theorem collaborators_called_at_most_once names r rw0 req next :
  let t := trace (snd (serve names r rw0 req next)) in
  let fwd := forwardedURLRaw r req in
  (length (List.filter is_EvValidateSignature t)
   + length (List.filter is_EvRequest t) <= 1)%nat /\
  (forall h f, In (EvValidateSignature h f) t -> h = Header req /\ f = fwd) /\
  (forall u f, In (EvRequest u f) t -> f = fwd) /\
  (forall uri, In (EvLookup uri) t ->
     List.filter is_EvLookup t = [EvLookup uri] /\
     exists u args,
       In (EvRequest u fwd) t /\
       routeservice.Request (config r) u fwd = (args, None) /\
       uri = (url.Host (routeservice.ParsedUrl args)
                ++ url.Path (routeservice.ParsedUrl args))%string).
Proof.
  intros t fwd. subst t.
  destruct (serve_cases names r rw0 req next)
    as [[_ H] | [[msg H] | [H | [H | [[e H] | [(h' & _ & H) | [(u & e & H)
        | (u & args & Hq & H)]]]]]]]; rewrite H; clear H; cbn [fst snd];
    try destruct (nil_or_empty _); cbn [trace];
    (split; [simpl; lia|]);
    (split; [intros h f Hin; simpl in Hin;
             repeat (destruct Hin as [Hin | Hin]; [inversion Hin; subst; auto|]);
             contradiction|]);
    (split; [intros u' f Hin; simpl in Hin;
             repeat (destruct Hin as [Hin | Hin]; [inversion Hin; subst; auto|]);
             contradiction|]);
    intros uri Hin; simpl in Hin;
    repeat (destruct Hin as [Hin | Hin]; [inversion Hin; subst|]);
    try contradiction;
    (split; [reflexivity|]); exists u, args; simpl; auto.
Qed.

Lemma ctxkey_eqb_false a b : a <> b -> ctxkey_eqb a b = false.
Proof.
  intros Hne. destruct a as [x | x], b as [y | y]; simpl; try reflexivity;
    apply String.eqb_neq; congruence.
Qed.

(** X13: what is handed on.  If validation leaves the headers alone, the
    request that [next] or the proxy receives differs from the one received
    only in the three route-service headers and in the context keys
    [RoutePool] and [RouteServiceURLCtxKey]: host, request URI, every other
    header entry and every other context value (a string key spelled
    [RouteServiceURL] included) are the same. *)
Theorem handed_on_request_differs_little names r rw0 req next :
  fst (routeservice.ValidateSignature (config r) (Header req) (forwardedURLRaw r req))
  = Header req ->
  let t := trace (snd (serve names r rw0 req next)) in
  let canon := textproto.CanonicalMIMEHeaderKey in
  forall rw' req',
    In (EvNext rw' req') t \/ In (EvProxy rw' req') t ->
    rw' = rw0 /\
    Host req' = Host req /\
    RequestURI req' = RequestURI req /\
    (forall j,
       j <> canon (routeservice.RouteServiceSignature names) ->
       j <> canon (routeservice.RouteServiceMetadata names) ->
       j <> canon (routeservice.RouteServiceForwardedURL names) ->
       Header req' !! j = Header req !! j) /\
    (forall k,
       k <> StringKey "RoutePool" -> k <> RouteServiceURLCtxKey ->
       Value (ctx req') k = Value (ctx req) k) /\
    Value (ctx req') (StringKey "RouteServiceURL")
    = Value (ctx req) (StringKey "RouteServiceURL").
Proof.
  intros Hval t canon rw' req' Hin. subst t canon.
  assert (Hframe :
    (rw' = rw0 /\ req' = req) \/
    (rw' = rw0 /\
     req' = with_Header req
              (Header.Del (Header.Del (Header.Del (Header req)
                 (routeservice.RouteServiceSignature names))
                 (routeservice.RouteServiceMetadata names))
                 (routeservice.RouteServiceForwardedURL names))) \/
    (exists args, rw' = rw0 /\ req' = outgoing names r req args)).
  { destruct (serve_cases names r rw0 req next)
      as [[_ H] | [[msg H] | [H | [H | [[e H] | [(h' & Hv & H) | [(u & e & H)
          | (u & args & _ & H)]]]]]]]; rewrite H in Hin; clear H; cbn [fst snd] in Hin;
      try destruct (nil_or_empty _); simpl in Hin;
      destruct Hin as [Hin | Hin];
      repeat (destruct Hin as [Hin | Hin]; [try discriminate Hin|]);
      try contradiction; inversion Hin; subst; eauto.
    right. left. rewrite Hv in Hval. simpl in Hval. subst h'. auto. }
  destruct Hframe as [[-> ->] | [[-> ->] | (args & -> & ->)]].
  - repeat split.
  - split; [reflexivity|]. split; [reflexivity|]. split; [reflexivity|].
    split; [|split; reflexivity].
    intros j H1 H2 H3. simpl. unfold Header.Del.
    now rewrite !lookup_delete_ne by congruence.
  - split; [reflexivity|]. split; [reflexivity|]. split; [reflexivity|].
    split; [|split].
    + intros j H1 H2 H3. simpl. unfold Header.Set_.
      now rewrite !lookup_insert_ne by congruence.
    + intros k H1 H2. unfold outgoing, WithValue, RouteServiceURLCtxKey in *.
      cbn [ctx Value].
      rewrite (ctxkey_eqb_false (StringKey "RoutePool") k) by congruence.
      now rewrite (ctxkey_eqb_false (TypedKey "RouteServiceURL") k) by congruence.
    + reflexivity.
Qed.

Lemma handed_on_request_differs_little_witness :
  let req := scenario.request {["Accept" := ["text/html"]]} in
  let t := trace (snd (serve scenario.names (scenario.handler true true)
                         scenario.flushing_writer req scenario.next)) in
  exists rw' req',
    List.filter is_EvNext t = [EvNext rw' req'] /\
    Header req' !! "Accept" = Some ["text/html"] /\
    Host req' = "app.example.com".
Proof.
  intros req t. eexists _, _. split; [vm_compute; reflexivity|].
  match goal with
  | |- Header ?q !! _ = _ /\ _ =>
      assert (Hin : In (EvNext scenario.flushing_writer q) t)
        by (vm_compute; right; right; left; reflexivity);
      destruct (handed_on_request_differs_little scenario.names
                  (scenario.handler true true) scenario.flushing_writer req
                  scenario.next eq_refl scenario.flushing_writer q (or_introl Hin))
        as (_ & Hh & _ & H & _)
  end.
  split; [|exact Hh].
  rewrite H; [reflexivity | | |]; vm_compute; discriminate.
Defined.

Lemma strip_after_set (h : gmap string (list string)) k1 k2 k3 a b c :
  h !! k1 = None -> h !! k2 = None -> h !! k3 = None ->
  delete k3 (delete k2 (delete k1 (<[k3 := c]> (<[k2 := b]> (<[k1 := a]> h))))) = h.
Proof.
  intros H1 H2 H3. apply map_eq. intros j.
  destruct (decide (j = k3)) as [-> | N3]; [now rewrite lookup_delete_eq|].
  rewrite lookup_delete_ne by congruence.
  destruct (decide (j = k2)) as [-> | N2]; [now rewrite lookup_delete_eq|].
  rewrite lookup_delete_ne by congruence.
  destruct (decide (j = k1)) as [-> | N1]; [now rewrite lookup_delete_eq|].
  rewrite lookup_delete_ne by congruence.
  now rewrite !lookup_insert_ne by congruence.
Qed.

Lemma lookup_absent (h : gmap string (list string)) key :
  ~ Header.present h key -> h !! textproto.CanonicalMIMEHeaderKey key = None.
Proof.
  unfold Header.present. intros Hn.
  destruct (h !! textproto.CanonicalMIMEHeaderKey key) eqn:E; [|reflexivity].
  exfalso. apply Hn. eauto.
Qed.

(** X14: out to the route service and back.  Let a request that carries
    none of the three route-service headers be signed on its outbound leg,
    with a non-empty signature, and let the signature header name differ from
    the other two.  The request sent on carries the three headers.  When it
    comes back with these headers, to the same host and request URI and with
    the same pool, it is taken for a return leg, the signature is validated
    against the very forwarded URL that was signed, and if the validation
    accepts it and leaves the headers alone, [next] receives the request
    exactly as it first arrived. *)
Theorem outbound_then_return_restores_request names r rw0 req next pool args :
  Value (ctx req) (StringKey "RoutePool") = Some (PoolPtr (Some pool)) ->
  route.RouteServiceUrl pool <> "" ->
  routeservice.RouteServiceEnabled (config r) = true ->
  let sigKey := routeservice.RouteServiceSignature names in
  let metaKey := routeservice.RouteServiceMetadata names in
  let fwdKey := routeservice.RouteServiceForwardedURL names in
  let canon := textproto.CanonicalMIMEHeaderKey in
  let signed := forwardedURLRaw r req in
  ~ Header.present (Header req) sigKey ->
  ~ Header.present (Header req) metaKey ->
  ~ Header.present (Header req) fwdKey ->
  routeservice.Request (config r) (route.RouteServiceUrl pool) signed = (args, None) ->
  routeservice.Signature args <> "" ->
  canon sigKey <> canon metaKey ->
  canon sigKey <> canon fwdKey ->
  let out := outgoing names r req args in
  let back := {| Header := Header out; Host := Host req;
                 RequestURI := RequestURI req; ctx := ctx req |} in
  routeservice.ValidateSignature (config r) (Header out) signed = (Header out, None) ->
  (let t := trace (snd (serve names r rw0 req next)) in
   In (EvRequest (route.RouteServiceUrl pool) signed) t /\
   (In (EvNext rw0 out) t \/ In (EvProxy rw0 out) t)) /\
  serve names r rw0 back next
  = (Returns tt,
     {| rw := next rw0 req;
        trace := [EvValidateSignature (Header out) signed; EvNext rw0 req] |}).
Proof.
  intros Hp Hu He sigKey metaKey fwdKey canon signed Hn1 Hn2 Hn3 Hq Hsig Hc1 Hc2
         out back Hv.
  subst canon. split.
  - intros t. subst t.
    rewrite (serve_outbound_signed names r rw0 req next pool Hp args Hu He
               (Get_absent _ _ Hn1) Hq).
    fold out. destruct (nil_or_empty _); simpl; (split; [now left|]).
    + right. right. right. now left.
    + left. right. right. now left.
  - assert (Hget : Header.Get (Header back) sigKey <> "").
    { subst back out. unfold outgoing. cbn [Header]. fold sigKey metaKey fwdKey.
      rewrite !Get_Set_other by congruence. now rewrite Get_Set. }
    assert (Hreq : with_Header back
                     (Header.Del (Header.Del (Header.Del (Header out) sigKey) metaKey)
                        fwdKey) = req).
    { subst back out. unfold outgoing, with_Header, Header.Del, Header.Set_.
      cbn [Header Host RequestURI ctx]. fold sigKey metaKey fwdKey.
      rewrite strip_after_set by (now apply lookup_absent).
      now destruct req. }
    rewrite (serve_return_leg_valid names r rw0 back next pool Hp (Header out)
               Hu He Hget Hv).
    fold sigKey metaKey fwdKey. rewrite Hreq. reflexivity.
Qed.

Lemma outbound_then_return_restores_request_witness :
  let req := scenario.request {["Accept" := ["text/html"]]} in
  let out := outgoing scenario.names roundtrip.handler req
               (fst (routeservice.Request roundtrip.cfg "https://rs.example.com/rs"
                       "http://app.example.com/foo")) in
  let back := {| Header := Header out; Host := Host req;
                 RequestURI := RequestURI req; ctx := ctx req |} in
  trace (snd (serve scenario.names roundtrip.handler scenario.flushing_writer back
                scenario.next))
  = [EvValidateSignature (Header out) "http://app.example.com/foo";
     EvNext scenario.flushing_writer req].
Proof.
  intros req out back.
  assert (Hn : forall k, textproto.CanonicalMIMEHeaderKey k <> "Accept" ->
                 ~ Header.present (Header req) k).
  { intros k Hk [x Hx]. simpl in Hx.
    rewrite lookup_singleton_ne in Hx by congruence. discriminate. }
  destruct (outbound_then_return_restores_request scenario.names roundtrip.handler
              scenario.flushing_writer req scenario.next scenario.app_pool
              (fst (routeservice.Request roundtrip.cfg "https://rs.example.com/rs"
                      "http://app.example.com/foo"))
              eq_refl ltac:(discriminate) eq_refl
              (Hn "X-CF-Proxy-Signature" ltac:(vm_compute; discriminate))
              (Hn "X-CF-Proxy-Metadata" ltac:(vm_compute; discriminate))
              (Hn "X-CF-Forwarded-Url" ltac:(vm_compute; discriminate))
              eq_refl ltac:(vm_compute; discriminate)
              ltac:(vm_compute; discriminate) ltac:(vm_compute; discriminate)
              ltac:(vm_compute; reflexivity)) as [_ H].
  fold req out back in H. rewrite H. reflexivity.
Defined.

Lemma collaborators_called_at_most_once_witness :
  let t := trace (snd (serve scenario.names (scenario.handler true true)
                         scenario.flushing_writer (scenario.request ∅) scenario.next)) in
  List.filter is_EvLookup t = [EvLookup "rs.example.com/rs"] /\
  List.filter is_EvValidateSignature t = [].
Proof.
  intros t.
  destruct (collaborators_called_at_most_once scenario.names (scenario.handler true true)
              scenario.flushing_writer (scenario.request ∅) scenario.next)
    as (_ & _ & _ & H).
  split; [|reflexivity].
  exact (proj1 (H "rs.example.com/rs" ltac:(vm_compute; right; left; reflexivity))).
Defined.

End RouteServiceExtras.
